(** * DermaVision AI: the report endpoint and the scan wizard

    A shallow embedding of
      - [app/api/analyze/route.ts]: the [POST] handler that sends one prompt
        to the Gemini models of [MODELS_TO_TRY], one after the other;
      - [app/page.tsx]: the state of [DermaVisionApp] and its event handlers
        ([performAnalysis], [analyzeWithVisionAI], [proceedToResults],
        [resetSession], [navigateToScreen]).

    JavaScript values that cross a JSON boundary are kept as a small
    datatype with the language's truthiness, string conversion and property
    access, since the handlers branch on them with [||], [?.] and [!]. *)

From Stdlib Require Import Bool List String Ascii ZArith Lia DecimalString.
Import ListNotations.
Open Scope string_scope.

(* ================================================================== *)
(** ** JavaScript values and strings *)
(* ================================================================== *)

Module JS.

(** A string is a sequence of code units; those written here are below 256,
    one [ascii] each. *)

(** The code units below 256 that [String.prototype.trim] removes:
    TAB, LF, VT, FF, CR, SPACE and NO-BREAK SPACE. *)
Definition is_space (c : ascii) : bool :=
  match nat_of_ascii c with
  | 9 | 10 | 11 | 12 | 13 | 32 | 160 => true
  | _ => false
  end.

Definition is_empty (s : string) : bool :=
  match s with
  | EmptyString => true
  | String _ _ => false
  end.

Fixpoint trimStart (s : string) : string :=
  match s with
  | EmptyString => EmptyString
  | String c r => if is_space c then trimStart r else s
  end.

Fixpoint trimEnd (s : string) : string :=
  match s with
  | EmptyString => EmptyString
  | String c r =>
      let r' := trimEnd r in
      if is_space c && is_empty r' then EmptyString else String c r'
  end.

(** A string of nothing but spaces. *)
Fixpoint all_space (s : string) : bool :=
  match s with
  | EmptyString => true
  | String c r => is_space c && all_space r
  end.

(** [s.trim()] *)
Definition trim (s : string) : string := trimStart (trimEnd s).

(** [s.split(sep)] for a separator of one code unit: never the empty
    array, [split sep ""] is [[""]]. *)
Fixpoint split (sep : ascii) (s : string) : list string :=
  match s with
  | EmptyString => [EmptyString]
  | String c r =>
      if Ascii.eqb c sep then EmptyString :: split sep r
      else match split sep r with
           | h :: t => String c h :: t
           | [] => [String c EmptyString]
           end
  end.

(** [s.includes(sep)] for a separator of one code unit. *)
Fixpoint includes (sep : ascii) (s : string) : bool :=
  match s with
  | EmptyString => false
  | String c r => Ascii.eqb c sep || includes sep r
  end.

(** *** Numbers

    A number is written by the integer of its JSON text; the value the
    program holds is the double nearest to that integer, and
    Number::toString prints the shortest digits that give that double
    back. *)

Definition decimal (n : Z) : string := NilZero.string_of_int (Z.to_int n).

(** The double nearest to the integer [v > 0], ties to the even mantissa;
    [None] when that is beyond the largest double, which gives Infinity. *)
Definition nearest_double (v : Z) : option Z :=
  let e := (Z.log2 v - 52)%Z in
  if (e <=? 0)%Z then Some v
  else
    let q := (v / 2 ^ e)%Z in
    let r := (v mod 2 ^ e)%Z in
    let half := (2 ^ (e - 1))%Z in
    let q' := if (half <? r)%Z || ((r =? half)%Z && Z.odd q)
              then (q + 1)%Z else q in
    let d := (q' * 2 ^ e)%Z in
    if (2 ^ 1024 <=? d)%Z then None else Some d.

(** The integer with the fewest significant digits that the double [d]
    is the nearest double of; of two with as few digits, the one closer to
    [d]. [nd] is the number of digits of [d], [k] the number of digits
    tried. *)
Fixpoint shortest_from (fuel : nat) (k d nd : Z) : Z :=
  match fuel with
  | O => d
  | S f =>
      let m := (nd - k)%Z in
      if (m <=? 0)%Z then d
      else
        let unit := (10 ^ m)%Z in
        let lo := (d / unit * unit)%Z in
        let hi := (lo + unit)%Z in
        let gives c :=
          match nearest_double c with
          | Some d' => (d' =? d)%Z
          | None => false
          end in
        match gives lo, gives hi with
        | true, true =>
            if (d - lo <? hi - d)%Z then lo
            else if (hi - d <? d - lo)%Z then hi
            else if Z.even (d / unit) then lo else hi
        | true, false => lo
        | false, true => hi
        | false, false => shortest_from f (k + 1)%Z d nd
        end
  end.

Definition shortest (d : Z) : Z :=
  shortest_from 17 1 d (Z.of_nat (String.length (decimal d))).

Fixpoint strip_zeros (s : string) : string :=
  match s with
  | EmptyString => EmptyString
  | String c r =>
      let r' := strip_zeros r in
      if Ascii.eqb c "0" && is_empty r' then EmptyString else String c r'
  end.

(** Number::toString of the double nearest to [v > 0]: the digits up to
    21 of them, the exponent form beyond. *)
Definition positive_number_string (v : Z) : string :=
  if (v <? 2 ^ 53)%Z then decimal v
  else
    match nearest_double v with
    | None => "Infinity"
    | Some d =>
        let all := decimal (shortest d) in
        let n := String.length all in
        if Nat.leb n 21 then all
        else
          match strip_zeros all with
          | String c rest =>
              String c (if is_empty rest then EmptyString else "." ++ rest)
              ++ "e+" ++ decimal (Z.of_nat (n - 1))
          | EmptyString => all
          end
    end.

Definition number_string (z : Z) : string :=
  if (z =? 0)%Z then "0"
  else if (z <? 0)%Z then "-" ++ positive_number_string (- z)
  else positive_number_string z.

(** What [JSON.parse] can return, and [undefined] for what a property
    access finds missing.  Numbers are the integers. *)
#[warnings="-register-all"]
Inductive value : Type :=
| VUndef
| VNull
| VBool (b : bool)
| VNum (z : Z)
| VStr (s : string)
| VArr (elems : list value)
| VObj (props : list (string * value)).

(** ToBoolean: what [!v], [v || d] and [if (v)] test. *)
Definition truthy (v : value) : bool :=
  match v with
  | VUndef | VNull => false
  | VBool b => b
  | VNum z => negb (Z.eqb z 0)
  | VStr s => negb (is_empty s)
  | VArr _ | VObj _ => true
  end.

(** [a || b] *)
Definition or_else (a b : value) : value := if truthy a then a else b.

(** ToString, as a template literal applies it, for the values on which it
    does not throw (see [converts] below).  An array is its elements joined
    by a comma, [null] and [undefined] elements giving nothing. *)
Fixpoint to_string (v : value) : string :=
  match v with
  | VUndef => "undefined"
  | VNull => "null"
  | VBool true => "true"
  | VBool false => "false"
  | VNum z => number_string z
  | VStr s => s
  | VArr elems =>
      let elem x :=
        match x with
        | VUndef | VNull => EmptyString
        | _ => to_string x
        end in
      (fix join (l : list value) : string :=
         match l with
         | [] => EmptyString
         | [x] => elem x
         | x :: rest => elem x ++ "," ++ join rest
         end) elems
  | VObj _ => "[object Object]"
  end.

Fixpoint lookup (k : string) (props : list (string * value)) : value :=
  match props with
  | [] => VUndef
  | (k', v) :: rest => if String.eqb k k' then v else lookup k rest
  end.

(** [v?.name] for the names this program reads ([candidates], [content],
    [parts], [text], [error], [message], [label], [result], [image],
    [symptoms], [visionAnalysis]): none is a property of a string, an
    array, a number or a boolean. *)
Definition prop_opt (v : value) (name : string) : value :=
  match v with
  | VObj props => lookup name props
  | _ => VUndef
  end.

(** [v?.[0]] *)
Definition elem0_opt (v : value) : value :=
  match v with
  | VArr elems => hd VUndef elems
  | VStr (String c _) => VStr (String c EmptyString)
  | VObj props => lookup "0" props
  | _ => VUndef
  end.

(** A computation that may throw; the payload is the [message] of what was
    thrown. *)
Inductive completion (A : Type) : Type :=
| Normal (a : A)
| Throw (message : string).
Arguments Normal {A} a.
Arguments Throw {A} message.

Definition bind {A B : Type} (c : completion A) (k : A -> completion B)
  : completion B :=
  match c with
  | Normal a => k a
  | Throw m => Throw m
  end.

Definition is_nullish (v : value) : bool :=
  match v with
  | VUndef | VNull => true
  | _ => false
  end.

Fixpoint has_key (k : string) (props : list (string * value)) : bool :=
  match props with
  | [] => false
  | (k', _) :: rest => String.eqb k k' || has_key k rest
  end.

(** Whether ToString goes through.  A parsed object with a key [toString]
    of its own has there a value that cannot be called, and neither can the
    [valueOf] it has or inherits give a primitive: the conversion throws a
    TypeError.  An array converts when its elements do. *)
Fixpoint converts (v : value) : bool :=
  match v with
  | VObj props => negb (has_key "toString" props)
  | VArr elems =>
      (fix all (l : list value) : bool :=
         match l with
         | [] => true
         | x :: rest => converts x && all rest
         end) elems
  | _ => true
  end.

(** [`${v}`] *)
Definition interpolate (v : value) : completion string :=
  if converts v then Normal (to_string v)
  else Throw "Cannot convert object to primitive value".

(** [v.name]: a TypeError on [null] and [undefined], with the message
    Node.js gives it. *)
Definition prop (v : value) (name : string) : completion value :=
  if is_nullish v
  then Throw ("Cannot read properties of " ++ to_string v
              ++ " (reading '" ++ name ++ "')")
  else Normal (prop_opt v name).

End JS.

(* ================================================================== *)
(** ** The report endpoint: [app/api/analyze/route.ts] *)
(* ================================================================== *)

Module Route.
Import JS.

Notation "x <- c ;; k" := (bind c (fun x => k))
  (at level 61, c at next level, right associativity).

Definition nl : string := String (ascii_of_nat 10) EmptyString.

Definition MODELS_TO_TRY : list string :=
  [ "gemini-2.0-flash"; "gemini-2.0-pro"; "gemini-1.5-flash"; "gemini-1.5-pro" ].

(** The two variables of [process.env] the handler reads; [None] is a
    variable that is not set. *)
Record Env : Type := {
  GEMINI_API_KEY : option string;
  GOOGLE_GEMINI_API_KEY : option string
}.

Definition env_value (o : option string) : value :=
  match o with
  | Some s => VStr s
  | None => VUndef
  end.

(** [payload.contents[0].parts]: the prompt and the inline image. *)
Record Payload : Type := {
  text : string;
  mime_type : string;
  data : string
}.

(** One call of [fetch]: the model's URL and the payload posted to it. *)
Record Attempt : Type := {
  url : string;
  payload : Payload
}.

(** What one call of [fetch] followed by [response.json()] comes to: either
    of the two rejects with an error of the given message, or there is a
    response with its [ok] flag and its parsed body. *)
Inductive fetch_result : Type :=
| Rejects (message : string)
| Resolves (ok : bool) (json : value).

(** What the handler answers with [NextResponse.json]. *)
Inductive Body : Type :=
| ErrorBody (error : string)
| ResultBody (result : value).

Record Response : Type := {
  status : nat;
  body : Body
}.

(** The template literal of [promptText], before [.trim()]. *)
Definition prompt_template (label symptoms : string) : string :=
  nl ++
  "You are a dermatology assistant AI.  " ++ nl ++
  "Analyze this skin image and provide:" ++ nl ++
  nl ++
  "1. **Likely condition(s)**  " ++ nl ++
  "2. **Risk level**  " ++ nl ++
  "3. **Whether the user should see a doctor**  " ++ nl ++
  "4. **Possible causes**  " ++ nl ++
  "5. **Non-medical general advice**" ++ nl ++
  nl ++
  "DO NOT give medical diagnosis. Give safe recommendations." ++ nl ++
  nl ++
  "VISION AI result: " ++ label ++ nl ++
  "User symptoms: " ++ symptoms ++ nl ++
  "    ".

(** [visionAnalysis?.label || "unknown"] *)
Definition label_value (visionAnalysis : value) : value :=
  or_else (prop_opt visionAnalysis "label") (VStr "unknown").

(** [symptoms || "not provided"] *)
Definition symptoms_value (symptoms : value) : value :=
  or_else symptoms (VStr "not provided").

(** The template literal, its two values converted from left to right,
    then [.trim()]; a value that does not convert throws. *)
Definition promptText (visionAnalysis symptoms : value) : completion string :=
  label <- interpolate (label_value visionAnalysis) ;;
  symptoms <- interpolate (symptoms_value symptoms) ;;
  Normal (trim (prompt_template label symptoms)).

(** [image.split(";")[0].split(":")[1] || "image/jpeg"] *)
Definition mimeType (image : string) : string :=
  match nth_error (split ":" (hd EmptyString (split ";" image))) 1 with
  | Some m => if is_empty m then "image/jpeg" else m
  | None => "image/jpeg"
  end.

(** [image.includes(",") ? image.split(",")[1] : image] *)
Definition base64Data (image : string) : string :=
  if includes "," image
  then nth 1 (split "," image) EmptyString
  else image.

Definition build_payload (image : string) (visionAnalysis symptoms : value)
  : completion Payload :=
  let mime := mimeType image in
  let base64 := base64Data image in
  t <- promptText visionAnalysis symptoms ;;
  Normal {| text := t; mime_type := mime; data := base64 |}.

(** [json.candidates?.[0]?.content?.parts?.[0]?.text || ... || null] *)
Definition candidate_text (json : value) : completion value :=
  candidates <- prop json "candidates" ;;
  let t :=
    prop_opt (elem0_opt (prop_opt (prop_opt (elem0_opt candidates) "content")
                                  "parts")) "text" in
  Normal (or_else (or_else t t) VNull).

(** [json.error?.message || "Unknown API error"] *)
Definition api_error (json : value) : completion value :=
  e <- prop json "error" ;;
  Normal (or_else (prop_opt e "message") (VStr "Unknown API error")).

(** One turn of the loop over the models: the handler returns the text, or
    the loop goes on with a new [lastError]. *)
Inductive turn : Type :=
| Return (text : value)
| Continue (lastError : value).

Definition try_model (r : fetch_result) : turn :=
  match r with
  | Rejects message => Continue (VStr message)
  | Resolves true json =>
      match candidate_text json with
      | Normal t =>
          if truthy t then Return t
          else Continue (VStr "Model returned no text")
      | Throw message => Continue (VStr message)
      end
  | Resolves false json =>
      match api_error json with
      | Normal e =>
          (* console.error(`... ${lastError}`), inside the [try] *)
          match interpolate e with
          | Normal _ => Continue e
          | Throw message => Continue (VStr message)
          end
      | Throw message => Continue (VStr message)
      end
  end.

Definition model_url (modelName apiKey : string) : string :=
  "https://generativelanguage.googleapis.com/v1/models/" ++ modelName
  ++ ":generateContent?key=" ++ apiKey.

(** The answer after the loop. *)
Definition all_failed (lastError : value) : completion Response :=
  shown <- interpolate lastError ;;
  Normal {| status := 503;
            body := ErrorBody ("All Gemini models failed. Last error: "
                               ++ shown) |}.

(** [process.env.GEMINI_API_KEY || process.env.GOOGLE_GEMINI_API_KEY] *)
Definition apiKey (env : Env) : value :=
  or_else (env_value (GEMINI_API_KEY env))
          (env_value (GOOGLE_GEMINI_API_KEY env)).

Section Handler.

(** The network: what the call for a URL and a payload comes to. *)
Variable fetch : string -> Payload -> fetch_result.

(** [for (const modelName of models) { ... }] and the answer after it, or
    what is thrown to the outer [catch], with the calls of [fetch] that
    were made, in the order made. *)
Fixpoint try_models (apiKey : string) (p : Payload) (models : list string)
         (lastError : value) : completion Response * list Attempt :=
  match models with
  | [] => (all_failed lastError, [])
  | modelName :: rest =>
      let u := model_url modelName apiKey in
      let a := {| url := u; payload := p |} in
      match try_model (fetch u p) with
      | Return t => (Normal {| status := 200; body := ResultBody t |}, [a])
      | Continue e =>
          let (resp, calls) := try_models apiKey p rest e in
          (resp, a :: calls)
      end
  end.

(** The body of the outer [try], after the key was found: it answers, or
    throws to the outer [catch]. *)
Definition handle (models : list string) (apiKey : string)
           (req_json : completion value)
  : completion Response * list Attempt :=
  match req_json with
  | Throw message => (Throw message, [])
  | Normal body =>
      if is_nullish body
      then (Throw ("Cannot destructure property 'image' of 'body' as it is "
                   ++ to_string body ++ "."), [])
      else
        let image := prop_opt body "image" in
        let symptoms := prop_opt body "symptoms" in
        let visionAnalysis := prop_opt body "visionAnalysis" in
        if negb (truthy image)
        then (Normal {| status := 400;
                        body := ErrorBody "Image not provided" |}, [])
        else
          match image with
          | VStr img =>
              match build_payload img visionAnalysis symptoms with
              | Normal p =>
                  try_models apiKey p models (VStr "Unknown error")
              | Throw message => (Throw message, [])
              end
          | _ => (Throw "image.split is not a function", [])
          end
  end.

(** [POST], over a list of models; [req_json] is what [req.json()] comes
    to.  The result is the response and the calls of [fetch] made. *)
Definition POST_with (models : list string) (env : Env)
           (req_json : completion value) : Response * list Attempt :=
  if negb (truthy (apiKey env))
  then ({| status := 500; body := ErrorBody "Missing GEMINI_API_KEY" |}, [])
  else
    let (answer, calls) := handle models (to_string (apiKey env)) req_json in
    match answer with
    | Normal r => (r, calls)
    | Throw message =>
        ({| status := 500;
            body := ErrorBody ("Internal server error: " ++ message) |},
         calls)
    end.

Definition POST : Env -> completion value -> Response * list Attempt :=
  POST_with MODELS_TO_TRY.

End Handler.

(** *** The outcomes of one call, as the loop tells them apart *)

(** The text the loop finds in the body of an [ok] response, if any. *)
Definition extractable_text (json : value) : option value :=
  match candidate_text json with
  | Normal t => if truthy t then Some t else None
  | Throw _ => None
  end.

(** A call fails by a transport error, by an error status of the backend,
    or by an [ok] response without text. *)
Definition failed (r : fetch_result) : bool :=
  match r with
  | Rejects _ => true
  | Resolves false _ => true
  | Resolves true json =>
      match extractable_text json with
      | Some _ => false
      | None => true
      end
  end.

Definition succeeded (r : fetch_result) : option value :=
  match r with
  | Resolves true json => extractable_text json
  | _ => None
  end.

Definition call_of (key : string) (p : Payload) (modelName : string)
  : Attempt :=
  {| url := model_url modelName key; payload := p |}.

(** The payload of the request with body [body] and image [img]. *)
Definition payload_of (body : value) (img : string) : completion Payload :=
  build_payload img (prop_opt body "visionAnalysis") (prop_opt body "symptoms").

(** The prompt up to and including the line of the vision result. *)
Definition prompt_head (label : string) : string :=
  "You are a dermatology assistant AI.  " ++ nl ++
  "Analyze this skin image and provide:" ++ nl ++
  nl ++
  "1. **Likely condition(s)**  " ++ nl ++
  "2. **Risk level**  " ++ nl ++
  "3. **Whether the user should see a doctor**  " ++ nl ++
  "4. **Possible causes**  " ++ nl ++
  "5. **Non-medical general advice**" ++ nl ++
  nl ++
  "DO NOT give medical diagnosis. Give safe recommendations." ++ nl ++
  nl ++
  "VISION AI result: " ++ label ++ nl.

(** *** Sample requests and networks *)

Definition env_with_key : Env :=
  {| GEMINI_API_KEY := Some "test-key"; GOOGLE_GEMINI_API_KEY := None |}.

Definition env_without_key : Env :=
  {| GEMINI_API_KEY := None; GOOGLE_GEMINI_API_KEY := None |}.

Definition sample_image : string := "data:image/png;base64,iVBORw0KGgo=".

Definition sample_body : value :=
  VObj [ ("image", VStr sample_image);
         ("symptoms", VArr [VStr "itching"; VStr "redness"]);
         ("visionAnalysis", VNull) ].

Definition body_without_image : value :=
  VObj [ ("symptoms", VArr [VStr "itching"]); ("visionAnalysis", VNull) ].

Definition body_without_symptoms : value :=
  VObj [ ("image", VStr sample_image) ].

(** The body of a Gemini answer with one candidate of one text part. *)
Definition gemini_answer (t : string) : value :=
  VObj [ ("candidates",
          VArr [ VObj [ ("content",
                         VObj [ ("parts", VArr [ VObj [ ("text", VStr t) ] ]) ])
                      ] ]) ].

Definition gemini_error (m : string) : value :=
  VObj [ ("error", VObj [ ("message", VStr m) ]) ].

(** A body with a label and a symptom text. *)
Definition body_with_label : value :=
  VObj [ ("image", VStr sample_image);
         ("symptoms", VStr "itching on the left arm");
         ("visionAnalysis", VObj [ ("label", VStr "mole") ]) ].

(** A body whose symptoms hold an object that does not convert. *)
Definition body_not_converting : value :=
  VObj [ ("image", VStr sample_image);
         ("symptoms", VArr [ VObj [ ("toString", VNum 1) ] ]) ].

(** A network where the first model is unreachable and every other model
    answers. *)
Definition net_second_answers (u : string) (_ : Payload) : fetch_result :=
  if String.eqb u (model_url "gemini-2.0-flash" "test-key")
  then Rejects "fetch failed"
  else Resolves true (gemini_answer "Likely eczema. Low risk.").

(** A network where no model gives text: a transport error, an error
    status, an answer without candidates, and an error status again. *)
Definition net_all_fail (u : string) (_ : Payload) : fetch_result :=
  if String.eqb u (model_url "gemini-2.0-flash" "test-key")
  then Rejects "fetch failed"
  else if String.eqb u (model_url "gemini-2.0-pro" "test-key")
  then Resolves false (gemini_error "model not found")
  else if String.eqb u (model_url "gemini-1.5-flash" "test-key")
  then Resolves true (VObj [])
  else Resolves false (gemini_error "quota exceeded").

End Route.

(* ================================================================== *)
(** ** The wizard: [app/page.tsx] *)
(* ================================================================== *)

Module Page.
Import JS.

Inductive Screen : Type :=
| landing | scan | triage | results | information | about.

Record ScanSession : Type := {
  symptoms : list string;
  risk_score : Z;
  image_url : option string;
  (** [result.data[0]] of the vision model, or [null] *)
  vision_result : value;
  (** [undefined] until a report arrives *)
  llm_report : value;
  error : option string
}.

(** The object literal of [useState<ScanSession>] and of [resetSession]. *)
Definition empty_session : ScanSession :=
  {| symptoms := []; risk_score := 0; image_url := None;
     vision_result := VNull; llm_report := VUndef; error := None |}.

(** The [useState] cells of [DermaVisionApp].  A language is kept by its
    code. *)
Record App : Type := {
  language : string;
  currentScreen : Screen;
  isTransitioning : bool;
  isAnalyzing : bool;
  isVisionLoading : bool;
  scanSession : ScanSession;
  capturedImage : option string;
  symptomsInput : string
}.

Definition initial_app : App :=
  {| language := "en";
     currentScreen := landing; isTransitioning := false;
     isAnalyzing := false; isVisionLoading := false;
     scanSession := empty_session; capturedImage := None;
     symptomsInput := EmptyString |}.

(** *** The setters *)

Definition setCurrentScreen (v : Screen) (a : App) : App :=
  {| language := language a;
     currentScreen := v; isTransitioning := isTransitioning a;
     isAnalyzing := isAnalyzing a; isVisionLoading := isVisionLoading a;
     scanSession := scanSession a; capturedImage := capturedImage a;
     symptomsInput := symptomsInput a |}.

Definition setLanguage (v : string) (a : App) : App :=
  {| language := v;
     currentScreen := currentScreen a; isTransitioning := isTransitioning a;
     isAnalyzing := isAnalyzing a; isVisionLoading := isVisionLoading a;
     scanSession := scanSession a; capturedImage := capturedImage a;
     symptomsInput := symptomsInput a |}.

Definition setIsTransitioning (v : bool) (a : App) : App :=
  {| language := language a;
     currentScreen := currentScreen a; isTransitioning := v;
     isAnalyzing := isAnalyzing a; isVisionLoading := isVisionLoading a;
     scanSession := scanSession a; capturedImage := capturedImage a;
     symptomsInput := symptomsInput a |}.

Definition setIsAnalyzing (v : bool) (a : App) : App :=
  {| language := language a;
     currentScreen := currentScreen a; isTransitioning := isTransitioning a;
     isAnalyzing := v; isVisionLoading := isVisionLoading a;
     scanSession := scanSession a; capturedImage := capturedImage a;
     symptomsInput := symptomsInput a |}.

Definition setIsVisionLoading (v : bool) (a : App) : App :=
  {| language := language a;
     currentScreen := currentScreen a; isTransitioning := isTransitioning a;
     isAnalyzing := isAnalyzing a; isVisionLoading := v;
     scanSession := scanSession a; capturedImage := capturedImage a;
     symptomsInput := symptomsInput a |}.

(** [setScanSession(prev => f(prev))] *)
Definition setScanSession (f : ScanSession -> ScanSession) (a : App) : App :=
  {| language := language a;
     currentScreen := currentScreen a; isTransitioning := isTransitioning a;
     isAnalyzing := isAnalyzing a; isVisionLoading := isVisionLoading a;
     scanSession := f (scanSession a); capturedImage := capturedImage a;
     symptomsInput := symptomsInput a |}.

Definition setCapturedImage (v : option string) (a : App) : App :=
  {| language := language a;
     currentScreen := currentScreen a; isTransitioning := isTransitioning a;
     isAnalyzing := isAnalyzing a; isVisionLoading := isVisionLoading a;
     scanSession := scanSession a; capturedImage := v;
     symptomsInput := symptomsInput a |}.

Definition setSymptomsInput (v : string) (a : App) : App :=
  {| language := language a;
     currentScreen := currentScreen a; isTransitioning := isTransitioning a;
     isAnalyzing := isAnalyzing a; isVisionLoading := isVisionLoading a;
     scanSession := scanSession a; capturedImage := capturedImage a;
     symptomsInput := v |}.

(** [{ ...prev, symptoms: v }] and the like *)
Definition with_symptoms (v : list string) (prev : ScanSession) : ScanSession :=
  {| symptoms := v; risk_score := risk_score prev;
     image_url := image_url prev; vision_result := vision_result prev;
     llm_report := llm_report prev; error := error prev |}.

Definition with_image_url (v : option string) (prev : ScanSession)
  : ScanSession :=
  {| symptoms := symptoms prev; risk_score := risk_score prev;
     image_url := v; vision_result := vision_result prev;
     llm_report := llm_report prev; error := error prev |}.

Definition with_vision_result (v : value) (prev : ScanSession) : ScanSession :=
  {| symptoms := symptoms prev; risk_score := risk_score prev;
     image_url := image_url prev; vision_result := v;
     llm_report := llm_report prev; error := error prev |}.

Definition with_llm_report (v : value) (prev : ScanSession) : ScanSession :=
  {| symptoms := symptoms prev; risk_score := risk_score prev;
     image_url := image_url prev; vision_result := vision_result prev;
     llm_report := v; error := error prev |}.

Definition with_error (v : option string) (prev : ScanSession) : ScanSession :=
  {| symptoms := symptoms prev; risk_score := risk_score prev;
     image_url := image_url prev; vision_result := vision_result prev;
     llm_report := llm_report prev; error := v |}.

(** *** What a handler asks of the browser *)

(** The body of the report request, [{ image, symptoms, visionAnalysis }],
    as the object handed to [JSON.stringify]. *)
Definition request_body (image : option string) (symptoms : list string)
           (visionAnalysis : value) : value :=
  VObj [ ("image", match image with Some i => VStr i | None => VNull end);
         ("symptoms", VArr (map VStr symptoms));
         ("visionAnalysis", visionAnalysis) ].

(** The two callbacks given to [setTimeout], with what each closes over. *)
Inductive timer : Type :=
| NavTimer (screen : Screen)
| ReportTimer (body : value).

Inductive effect : Type :=
| Alert (message : string)
| SetTimeout (t : timer) (ms : N)
| CallVision (imageSrc : string)
| ReadFile
| FetchAnalyze (body : value).

(** *** The handlers *)

Definition navigateToScreen (screen : Screen) (a : App) : App * list effect :=
  (setIsTransitioning true a, [SetTimeout (NavTimer screen) 300]).

(** The callback of [navigateToScreen]'s timer. *)
Definition navigate_timeout (screen : Screen) (a : App) : App :=
  setIsTransitioning false (setCurrentScreen screen a).

(** [analyzeWithVisionAI], up to its first [await]. *)
Definition analyzeWithVisionAI (imageSrc : string) (a : App)
  : App * list effect :=
  (setIsVisionLoading true a, [CallVision imageSrc]).

(** [analyzeWithVisionAI], once the awaited calls are settled: [Normal d]
    when [app.predict] gave a result whose [data] is the array [d],
    [Throw] when anything inside the [try] threw. *)
Definition analyzeWithVisionAI_settled (r : completion (list value)) (a : App)
  : App * list effect :=
  match r with
  | Normal d =>
      (setIsVisionLoading false
         (setScanSession (with_vision_result (hd VUndef d)) a), [])
  | Throw _ =>
      (setIsVisionLoading false a,
       [Alert "AI Model connection failed. Continuing with basic analysis."])
  end.

Definition performAnalysis (imageSrc : string) (a : App) : App * list effect :=
  let a1 := setCapturedImage (Some imageSrc) a in
  let a2 := setScanSession (with_image_url (Some imageSrc)) a1 in
  let (a3, e3) := analyzeWithVisionAI imageSrc a2 in
  let (a4, e4) := navigateToScreen triage a3 in
  (a4, (e3 ++ e4)%list).

Definition handleWebcamCapture : string -> App -> App * list effect :=
  performAnalysis.

(** [handleFileUpload] with a file chosen; [reader.onload] is
    [performAnalysis] on what was read. *)
Definition handleFileUpload (a : App) : App * list effect := (a, [ReadFile]).

Definition handleSymptomsChange (text : string) (a : App) : App :=
  setSymptomsInput text a.

Fixpoint remove_index {A : Type} (idx : nat) (l : list A) : list A :=
  match l, idx with
  | [], _ => []
  | _ :: t, O => t
  | h :: t, S i => h :: remove_index i t
  end.

(** [prev.split(",").filter((_, i) => i !== idx).join(",")] *)
Definition removeSymptomsTag (idx : nat) (a : App) : App :=
  setSymptomsInput
    (String.concat "," (remove_index idx (split "," (symptomsInput a)))) a.

(** [symptomsInput.split(",").map((s) => s.trim()).filter((s) => s)] *)
Definition parse_symptoms (input : string) : list string :=
  filter (fun s => negb (is_empty s)) (map trim (split "," input)).

Definition proceedToResults (a : App) : App * list effect :=
  let symptoms := parse_symptoms (symptomsInput a) in
  match symptoms with
  | [] => (a, [Alert "Please enter at least one symptom"])
  | _ :: _ =>
      let a1 := setScanSession (with_symptoms symptoms) a in
      let (a2, e2) := navigateToScreen results a1 in
      (a2, (e2 ++ [SetTimeout
                     (ReportTimer
                        (request_body (capturedImage a) symptoms
                                      (vision_result (scanSession a))))
                     500])%list)
  end.

(** What [fetch('/api/analyze')] comes to: it rejects, or there is a
    response with its [ok] flag and [status], and what [response.json()]
    comes to. *)
Inductive report_result : Type :=
| FetchRejects (message : string)
| Responds (ok : bool) (status : nat) (json : completion value).

(** The body of the [try] in the report timer, after [await fetch]: the
    report to store if any, or what is thrown to the [catch]. *)
Definition report_try (r : report_result) : completion value :=
  match r with
  | FetchRejects message => Throw message
  | Responds false status _ =>
      Throw ("API Error: " ++ to_string (VNum (Z.of_nat status)))
  | Responds true _ json =>
      bind json (fun data => prop data "result")
  end.

Definition report_settled (r : report_result) (a : App) : App :=
  match report_try r with
  | Normal result =>
      if truthy result then setScanSession (with_llm_report result) a else a
  | Throw message => setScanSession (with_error (Some message)) a
  end.

Definition resetSession (a : App) : App * list effect :=
  let a1 := setScanSession (fun _ => empty_session) a in
  let a2 := setSymptomsInput EmptyString a1 in
  let a3 := setCapturedImage None a2 in
  let a4 := setIsAnalyzing false a3 in
  let a5 := setIsVisionLoading false a4 in
  navigateToScreen landing a5.

(** *** The browser around the component

    Timers and calls in flight, and the events that move the wizard: what
    the user does on the screen shown, a timer that comes due, a call that
    settles.  [setTimeout] callbacks run in the order of their due times.
    The suggestion buttons of the symptom screen only edit the text of the
    symptom box, which [TypeSymptoms] sets to any text; they have no event
    of their own. *)

Record vision_call : Type := {
  imageSrc : string;
  (** how many times [resetSession] had run when the call was made: kept
      by the model to tell the calls of an earlier session, the program
      keeps no such mark *)
  made_after : nat
}.

Record World : Type := {
  app : App;
  (** the clock, in milliseconds *)
  now : N;
  (** pending [setTimeout] callbacks with their due times, oldest first *)
  timers : list (N * timer);
  (** calls of [analyzeWithVisionAI] not yet settled *)
  vision_calls : list vision_call;
  (** bodies of the [fetch('/api/analyze')] calls not yet settled *)
  report_calls : list value;
  (** [FileReader] reads not yet loaded *)
  file_reads : nat;
  (** how many times [resetSession] has run *)
  resets : nat
}.

Definition initial_world : World :=
  {| app := initial_app; now := 0; timers := []; vision_calls := [];
     report_calls := []; file_reads := 0; resets := 0 |}.

Definition run_effect (w : World) (e : effect) : World :=
  match e with
  | Alert _ => w
  | SetTimeout t ms =>
      {| app := app w; now := now w;
         timers := (timers w ++ [((now w + ms)%N, t)])%list;
         vision_calls := vision_calls w; report_calls := report_calls w;
         file_reads := file_reads w; resets := resets w |}
  | CallVision img =>
      {| app := app w; now := now w; timers := timers w;
         vision_calls :=
           (vision_calls w
              ++ [{| imageSrc := img; made_after := resets w |}])%list;
         report_calls := report_calls w;
         file_reads := file_reads w; resets := resets w |}
  | ReadFile =>
      {| app := app w; now := now w; timers := timers w;
         vision_calls := vision_calls w; report_calls := report_calls w;
         file_reads := S (file_reads w); resets := resets w |}
  | FetchAnalyze b =>
      {| app := app w; now := now w; timers := timers w;
         vision_calls := vision_calls w;
         report_calls := (report_calls w ++ [b])%list;
         file_reads := file_reads w; resets := resets w |}
  end.

Definition set_app (a : App) (w : World) : World :=
  {| app := a; now := now w; timers := timers w;
     vision_calls := vision_calls w; report_calls := report_calls w;
     file_reads := file_reads w; resets := resets w |}.

(** A handler run in the world: its new state, then its effects in order. *)
Definition handled (w : World) (r : App * list effect) : World :=
  fold_left run_effect (snd r) (set_app (fst r) w).

Fixpoint min_due (l : list (N * timer)) : option N :=
  match l with
  | [] => None
  | (d, _) :: rest =>
      match min_due rest with
      | Some d' => Some (N.min d d')
      | None => Some d
      end
  end.

(** The oldest timer due at [d], and the others. *)
Fixpoint take_due (d : N) (l : list (N * timer))
  : option (timer * list (N * timer)) :=
  match l with
  | [] => None
  | (d', t) :: rest =>
      if N.eqb d' d then Some (t, rest)
      else match take_due d rest with
           | Some (t', rest') => Some (t', (d', t) :: rest')
           | None => None
           end
  end.

Definition timer_callback (t : timer) (a : App) : App * list effect :=
  match t with
  | NavTimer screen => (navigate_timeout screen a, [])
  | ReportTimer b => (a, [FetchAnalyze b])
  end.

Inductive event : Type :=
| SelectLanguage (code : string)
| ClickStartScan
| ClickCloseScan
| WebcamCapture (imageSrc : string)
| ChooseFile
| FileLoaded (result : string)
| TypeSymptoms (text : string)
| ClickRemoveTag (idx : nat)
| ClickGenerateReport
| ClickNewScan
| ClickBack
| Elapse (ms : N)
| TimerFires
| VisionSettles (k : nat) (r : completion (list value))
| ReportSettles (k : nat) (r : report_result).

Definition on_screen (s : Screen) (w : World) : bool :=
  match currentScreen (app w), s with
  | landing, landing | scan, scan | triage, triage | results, results
  | information, information | about, about => true
  | _, _ => false
  end.

(** One event; [None] when the event cannot happen in this state: the
    button is not on the screen shown or is disabled, no timer is pending,
    the call is not in flight. *)
Definition step (w : World) (ev : event) : option World :=
  match ev with
  | SelectLanguage code =>
      (* <LanguageSelector onLanguageChange={setLanguage} /> of LandingPage *)
      if on_screen landing w
      then Some (set_app (setLanguage code (app w)) w) else None
  | ClickStartScan =>
      if on_screen landing w
      then Some (handled w (navigateToScreen scan (app w))) else None
  | ClickCloseScan =>
      if on_screen scan w
      then Some (handled w (navigateToScreen landing (app w))) else None
  | WebcamCapture img =>
      if on_screen scan w
      then Some (handled w (handleWebcamCapture img (app w))) else None
  | ChooseFile =>
      if on_screen scan w && negb (isAnalyzing (app w))
      then Some (handled w (handleFileUpload (app w))) else None
  | FileLoaded result =>
      match file_reads w with
      | O => None
      | S n =>
          let w' :=
            {| app := app w; now := now w; timers := timers w;
               vision_calls := vision_calls w;
               report_calls := report_calls w;
               file_reads := n; resets := resets w |} in
          Some (handled w' (performAnalysis result (app w)))
      end
  | TypeSymptoms text =>
      if on_screen triage w
      then Some (set_app (handleSymptomsChange text (app w)) w) else None
  | ClickRemoveTag idx =>
      if on_screen triage w
      then Some (set_app (removeSymptomsTag idx (app w)) w) else None
  | ClickGenerateReport =>
      (* <button onClick={proceedToResults} disabled={isAnalyzingVision}> *)
      if on_screen triage w && negb (isVisionLoading (app w))
      then Some (handled w (proceedToResults (app w))) else None
  | ClickNewScan =>
      if on_screen results w
      then
        let w' :=
          {| app := app w; now := now w; timers := timers w;
             vision_calls := vision_calls w;
             report_calls := report_calls w;
             file_reads := file_reads w; resets := S (resets w) |} in
        Some (handled w' (resetSession (app w)))
      else None
  | ClickBack =>
      if on_screen information w || on_screen about w
      then Some (handled w (navigateToScreen landing (app w))) else None
  | Elapse ms =>
      let later := (now w + ms)%N in
      let w' :=
        {| app := app w; now := later; timers := timers w;
           vision_calls := vision_calls w; report_calls := report_calls w;
           file_reads := file_reads w; resets := resets w |} in
      match min_due (timers w) with
      | Some d => if N.leb later d then Some w' else None
      | None => Some w'
      end
  | TimerFires =>
      match min_due (timers w) with
      | Some d =>
          match take_due d (timers w) with
          | Some (t, rest) =>
              let w' :=
                {| app := app w; now := N.max (now w) d; timers := rest;
                   vision_calls := vision_calls w;
                   report_calls := report_calls w;
                   file_reads := file_reads w; resets := resets w |} in
              Some (handled w' (timer_callback t (app w)))
          | None => None
          end
      | None => None
      end
  | VisionSettles k r =>
      match nth_error (vision_calls w) k with
      | Some _ =>
          let w' :=
            {| app := app w; now := now w; timers := timers w;
               vision_calls := remove_index k (vision_calls w);
               report_calls := report_calls w;
               file_reads := file_reads w; resets := resets w |} in
          Some (handled w' (analyzeWithVisionAI_settled r (app w)))
      | None => None
      end
  | ReportSettles k r =>
      match nth_error (report_calls w) k with
      | Some _ =>
          let w' :=
            {| app := app w; now := now w; timers := timers w;
               vision_calls := vision_calls w;
               report_calls := remove_index k (report_calls w);
               file_reads := file_reads w; resets := resets w |} in
          Some (set_app (report_settled r (app w)) w')
      | None => None
      end
  end.

Fixpoint run (w : World) (evs : list event) : option World :=
  match evs with
  | [] => Some w
  | ev :: rest =>
      match step w ev with
      | Some w' => run w' rest
      | None => None
      end
  end.

Inductive reachable : World -> Prop :=
| reach_initial : reachable initial_world
| reach_step w ev w' : reachable w -> step w ev = Some w' -> reachable w'.

(** *** Inputs and runs used below *)


Definition image_A : string := "data:image/jpeg;base64,AAAA".
Definition image_B : string := "data:image/png;base64,BBBB".

(** What the vision model gives for a picture: a label and confidences. *)
Definition vision_answer (label : string) : value :=
  VObj [ ("label", VStr label);
         ("confidences",
          VArr [ VObj [ ("label", VStr label); ("confidence", VNum 1) ] ]) ].

(** From the landing page to the symptom screen with one picture taken,
    its classification still in flight, and a symptom typed. *)
Definition run_to_symptoms : list event :=
  [ ClickStartScan; TimerFires; Elapse 1000;
    WebcamCapture image_A; TimerFires; Elapse 1000;
    TypeSymptoms "itching" ].

(** A file is chosen and, while it is read, a picture is taken with the
    camera; the read ends before the symptom screen shows, so that two
    classifications are in flight.  The first one resolves and the user
    types a symptom; the second classification is still in flight. *)
Definition run_to_submission : list event :=
  [ ClickStartScan; TimerFires;
    ChooseFile; Elapse 50; WebcamCapture image_A;
    Elapse 100; FileLoaded image_B;
    TimerFires; TimerFires; Elapse 2000;
    VisionSettles 0 (Normal [vision_answer "mole"]);
    TypeSymptoms "itching" ].

(** Then the user sends the symptoms, reaches the results and starts a new
    scan, the second classification being in flight all along. *)
Definition run_to_reset : list event :=
  (run_to_submission
     ++ [ ClickGenerateReport; TimerFires; Elapse 100; ClickNewScan ])%list.

(** Or the user sends the symptoms, and the second classification resolves
    before the report request is due. *)
Definition run_to_request : list event :=
  (run_to_submission
     ++ [ ClickGenerateReport; Elapse 200;
          VisionSettles 0 (Normal [vision_answer "rash"]);
          TimerFires ])%list.

Definition end_of (evs : list event) : World :=
  match run initial_world evs with
  | Some w => w
  | None => initial_world
  end.

Definition world_at_symptoms : World :=
  Eval vm_compute in end_of run_to_symptoms.

Definition world_at_submission : World :=
  Eval vm_compute in end_of run_to_submission.

Definition world_after_reset : World :=
  Eval vm_compute in end_of run_to_reset.

Definition world_before_request : World :=
  Eval vm_compute in end_of run_to_request.

(** What is looked at after a run: the number of resets, the marks of the
    classifications in flight, and the session's classification. *)
Definition observe (w : World) : nat * list nat * value :=
  (resets w, map made_after (vision_calls w),
   vision_result (scanSession (app w))).

(** The guard the specification asks for: a classification made before the
    last reset leaves the session's classification as it is when it
    resolves. *)
Definition stale_writes_suppressed : Prop :=
  forall w k c d w',
    reachable w ->
    nth_error (vision_calls w) k = Some c ->
    made_after c < resets w ->
    step w (VisionSettles k (Normal d)) = Some w' ->
    vision_result (scanSession (app w')) = vision_result (scanSession (app w)).

(** Submission as the specification has it: with a symptom entered, the
    user can send the symptoms while a classification is in flight, and the
    request then scheduled carries no classification. *)
Definition submits_without_waiting : Prop :=
  forall w,
    reachable w ->
    on_screen triage w = true ->
    vision_calls w <> [] ->
    parse_symptoms (symptomsInput (app w)) <> [] ->
    exists w' b,
      step w ClickGenerateReport = Some w' /\
      In ((now w + 500)%N, ReportTimer b) (timers w') /\
      prop_opt b "visionAnalysis" = VNull.

End Page.

(* ================================================================== *)
(** ** The symptom screen: suggestions and tags *)
(* ================================================================== *)

Module Triage.
Import JS Page.

Definition RED_FLAG_SUGGESTIONS : list string :=
  [ "Bleeding"; "Itching"; "Fast Growth"; "Pain"; "Color Changes";
    "Irregular Borders"; "Asymmetrical"; "Oozing"; "Non-healing";
    "Scaly"; "Raised"; "Tender" ].

Fixpoint starts_with (needle hay : string) : bool :=
  match needle, hay with
  | EmptyString, _ => true
  | String _ _, EmptyString => false
  | String a n, String b h => Ascii.eqb a b && starts_with n h
  end.

(** [hay.includes(needle)] *)
Fixpoint includes_str (needle hay : string) : bool :=
  starts_with needle hay
  || match hay with
     | EmptyString => false
     | String _ r => includes_str needle r
     end.

Fixpoint drop (n : nat) (s : string) : string :=
  match n, s with
  | O, _ => s
  | S _, EmptyString => EmptyString
  | S m, String _ r => drop m r
  end.

(** [hay.replace(needle, "")]: the first occurrence goes. *)
Fixpoint remove_first (needle hay : string) : string :=
  if starts_with needle hay then drop (String.length needle) hay
  else match hay with
       | EmptyString => EmptyString
       | String c r => String c (remove_first needle r)
       end.

(** A match of [/,\s*,/] at the start of [s], and what follows it.  The
    spaces are taken greedily; giving some back cannot help, the code unit
    wanted next being a comma. *)
Definition comma_spaces_comma (s : string) : option string :=
  match s with
  | String c r =>
      if Ascii.eqb c ","
      then match trimStart r with
           | String c' r' => if Ascii.eqb c' "," then Some r' else None
           | EmptyString => None
           end
      else None
  | EmptyString => None
  end.

(** [s.replace(/,\s*,/g, ",")]: at each position from the left, a match is
    replaced and the search goes on after it, or the code unit is kept.
    Each turn takes at least one code unit. *)
Fixpoint collapse_from (fuel : nat) (s : string) : string :=
  match fuel with
  | O => s
  | S f =>
      match comma_spaces_comma s with
      | Some rest => String "," (collapse_from f rest)
      | None =>
          match s with
          | EmptyString => EmptyString
          | String c r => String c (collapse_from f r)
          end
      end
  end.

Definition collapse_commas (s : string) : string :=
  collapse_from (String.length s) s.

(** The matches of [,\s*$]: a comma with nothing but spaces after it. *)
Fixpoint cut_tail (s : string) : string :=
  match s with
  | EmptyString => EmptyString
  | String c r =>
      if Ascii.eqb c "," && all_space r then EmptyString
      else String c (cut_tail r)
  end.

(** [s.replace(/^,\s*|,\s*$/g, "")]: a comma at the very start goes with
    the spaces after it, and so does a comma with only spaces up to the
    end. *)
Definition strip_edges (s : string) : string :=
  match s with
  | String c r => if Ascii.eqb c "," then cut_tail (trimStart r) else cut_tail s
  | EmptyString => EmptyString
  end.

(** The updater of [toggleSymptom]. *)
Definition toggled (symptom prev : string) : string :=
  if includes_str symptom prev
  then trim (strip_edges (collapse_commas (remove_first symptom prev)))
  else if is_empty prev then symptom
       else prev ++ ", " ++ symptom.

Definition toggleSymptom (symptom : string) (a : App) : App :=
  setSymptomsInput (toggled symptom (symptomsInput a)) a.

(** The tags under "Entered symptoms": for each piece of the text between
    commas that is not blank, its index among the pieces and its trimmed
    text; nothing when the text is empty. *)
Fixpoint tags_from (idx : nat) (pieces : list string) : list (nat * string) :=
  match pieces with
  | [] => []
  | piece :: rest =>
      if is_empty (trim piece) then tags_from (S idx) rest
      else (idx, trim piece) :: tags_from (S idx) rest
  end.

Definition symptom_tags (symptomsInput : string) : list (nat * string) :=
  if is_empty symptomsInput then []
  else tags_from 0 (split "," symptomsInput).

End Triage.

(* ================================================================== *)
(** ** Between the page and the endpoint *)
(* ================================================================== *)

Module Wire.
Import JS.

(** [JSON.parse(JSON.stringify(v))]: a property whose value is [undefined]
    is left out, an [undefined] element of an array becomes [null]. *)
Fixpoint json_wire (v : value) : value :=
  match v with
  | VArr elems =>
      VArr (map (fun x => match x with
                          | VUndef => VNull
                          | _ => json_wire x
                          end) elems)
  | VObj props =>
      VObj ((fix wire_props (l : list (string * value)) :=
               match l with
               | [] => []
               | (k, x) :: rest =>
                   match x with
                   | VUndef => wire_props rest
                   | _ => (k, json_wire x) :: wire_props rest
                   end
               end) props)
  | _ => v
  end.





End Wire.

(* ================================================================== *)
(** ** More sample inputs *)
(* ================================================================== *)

Module Samples.
Import JS Route.

(** Only the second variable of the environment is set. *)
Definition env_with_google_key : Env :=
  {| GEMINI_API_KEY := Some EmptyString;
     GOOGLE_GEMINI_API_KEY := Some "google-key" |}.

(** The scan screen, just opened. *)
Definition run_to_scan : list Page.event :=
  [ Page.ClickStartScan; Page.TimerFires ].

Definition world_on_scan : Page.World :=
  Eval vm_compute in Page.end_of run_to_scan.

(** The results screen, with the report request still to be sent and a
    classification in flight. *)
Definition run_to_results : list Page.event :=
  (Page.run_to_submission ++ [ Page.ClickGenerateReport; Page.TimerFires ])%list.

Definition world_on_results : Page.World :=
  Eval vm_compute in Page.end_of run_to_results.

(** A network where every model answers with the error status and message
    that [net_all_fail] gives for the last model. *)
Definition net_last_quota (_ : string) (_ : Payload) : fetch_result :=
  Resolves false (gemini_error "quota exceeded").

(** The results screen once the report request was sent: no timer is
    pending. *)
Definition run_to_report_sent : list Page.event :=
  (run_to_results ++ [ Page.TimerFires ])%list.

(** The same, with Hindi chosen on the landing page first. *)
Definition run_in_hindi : list Page.event :=
  (Page.SelectLanguage "hi" :: run_to_report_sent)%list.

Definition world_in_hindi : Page.World :=
  Eval vm_compute in Page.end_of run_in_hindi.

End Samples.

(* ================================================================== *)
(** ** What every run of the wizard keeps *)
(* ================================================================== *)

Module Invariant.
Import JS Page.

(** The screens that some handler navigates to. *)
Definition screen_ok (s : Screen) : bool :=
  match s with
  | information | about => false
  | _ => true
  end.

Definition timer_ok (t : timer) : bool :=
  match t with
  | NavTimer s => screen_ok s
  | ReportTimer _ => true
  end.

Definition wizard_invariant (w : World) : Prop :=
  capturedImage (app w) = image_url (scanSession (app w))
  /\ isAnalyzing (app w) = false
  /\ (isVisionLoading (app w) = true -> vision_calls w <> [])
  /\ screen_ok (currentScreen (app w)) = true
  /\ Forall (fun dt => timer_ok (snd dt) = true) (timers w).

End Invariant.

(* ================================================================== *)
(** ** Facts about strings and values *)
(* ================================================================== *)

Module JSFacts.
Import JS.

Lemma append_assoc (a b c : string) : (a ++ b) ++ c = a ++ (b ++ c).
Proof.
  induction a as [|x a IH]; simpl; [reflexivity | now rewrite IH].
Qed.

Lemma append_empty_r (a : string) : a ++ EmptyString = a.
Proof.
  induction a as [|x a IH]; simpl; [reflexivity | now rewrite IH].
Qed.

(** Trimming at the end stops at a code unit that is not a space. *)
Lemma trimEnd_app_nonspace (x : string) (c : ascii) (z : string) :
  is_space c = false ->
  trimEnd (x ++ String c z) = x ++ String c (trimEnd z).
Proof.
  intros Hc. induction x as [|a x IH]; simpl.
  - now rewrite Hc.
  - rewrite IH. destruct x; simpl; now rewrite andb_false_r.
Qed.

Lemma trimEnd_all_space (s : string) :
  all_space s = true -> trimEnd s = EmptyString.
Proof.
  induction s as [|c s IH]; simpl; [reflexivity|].
  intros H. apply andb_true_iff in H as [Hc Hs].
  now rewrite (IH Hs), Hc.
Qed.

Lemma trim_all_space (s : string) : all_space s = true -> trim s = EmptyString.
Proof.
  intros H. unfold trim. now rewrite trimEnd_all_space.
Qed.

Lemma is_empty_app_cons' (x : string) (c : ascii) (z : string) :
  is_empty (x ++ String c z) = false.
Proof. now destruct x. Qed.

(** An array of strings converts to its elements joined by commas. *)
Lemma to_string_strings (l : list string) :
  to_string (VArr (map VStr l)) = String.concat "," l.
Proof.
  induction l as [|s l IH]; [reflexivity|].
  destruct l as [|s' l]; [reflexivity|].
  change (to_string (VArr (map VStr (s :: s' :: l))))
    with (s ++ "," ++ to_string (VArr (map VStr (s' :: l)))).
  now rewrite IH.
Qed.

End JSFacts.

(* ================================================================== *)
(** ** The report endpoint: properties *)
(* ================================================================== *)

Module RouteFacts.
Import JS Route JSFacts.

(** What the loop leaves in [lastError] converts. *)
Lemma try_model_continue_converts (r : fetch_result) (e : value) :
  try_model r = Continue e -> converts e = true.
Proof.
  destruct r as [m | [|] json]; simpl.
  - now intros [= <-].
  - destruct (candidate_text json) as [t|m].
    + destruct (truthy t); [discriminate | now intros [= <-]].
    + now intros [= <-].
  - destruct (api_error json) as [v|m]; [|now intros [= <-]].
    unfold interpolate. destruct (converts v) eqn:Hv; now intros [= <-].
Qed.

Lemma failed_continues (r : fetch_result) :
  failed r = true -> exists e, try_model r = Continue e.
Proof.
  destruct r as [m | [|] json]; simpl; unfold extractable_text.
  - eauto.
  - destruct (candidate_text json) as [t|m]; [|eauto].
    destruct (truthy t); [discriminate | eauto].
  - destruct (api_error json) as [v|m]; [|eauto].
    destruct (interpolate v); eauto.
Qed.

Lemma succeeded_returns (r : fetch_result) (t : value) :
  succeeded r = Some t -> try_model r = Return t.
Proof.
  destruct r as [m | [|] json]; simpl; try discriminate.
  unfold extractable_text.
  destruct (candidate_text json) as [t'|m]; [|discriminate].
  destruct (truthy t'); [|discriminate].
  now intros [= ->].
Qed.

Lemma all_failed_converting (e : value) :
  converts e = true ->
  all_failed e
  = Normal {| status := 503;
              body := ErrorBody ("All Gemini models failed. Last error: "
                                 ++ to_string e) |}.
Proof.
  intros H. unfold all_failed, interpolate. now rewrite H.
Qed.

Section Loop.

Variable fetch : string -> Payload -> fetch_result.
Variables (key : string) (p : Payload).

(** The loop stops at the first model whose call gives text. *)
Lemma try_models_first_success (pre post : list string) (m : string)
      (t e0 : value) :
  Forall (fun m' => failed (fetch (model_url m' key) p) = true) pre ->
  succeeded (fetch (model_url m key) p) = Some t ->
  try_models fetch key p (pre ++ m :: post) e0 =
    (Normal {| status := 200; body := ResultBody t |},
     map (call_of key p) (pre ++ [m])).
Proof.
  intros Hpre Hm. revert e0.
  induction Hpre as [|m' pre Hm' _ IH]; intros e0; simpl.
  - now rewrite (succeeded_returns _ _ Hm).
  - destruct (failed_continues _ Hm') as [e ->].
    now rewrite IH.
Qed.

(** When every call fails, the answer is made from what the last call left
    in [lastError]. *)
Lemma try_models_all_fail (pre : list string) (m : string) (e0 : value) :
  Forall (fun m' => failed (fetch (model_url m' key) p) = true) (pre ++ [m]) ->
  exists e,
    try_model (fetch (model_url m key) p) = Continue e /\
    try_models fetch key p (pre ++ [m]) e0 =
      (all_failed e, map (call_of key p) (pre ++ [m])).
Proof.
  revert e0. induction pre as [|m' pre IH]; intros e0 H; simpl.
  - inversion H as [|? ? Hm _]; subst.
    destruct (failed_continues _ Hm) as [e He].
    exists e. now rewrite He.
  - inversion H as [|? ? Hm' Hrest]; subst.
    destruct (failed_continues _ Hm') as [e' He'].
    rewrite He'.
    destruct (IH e' Hrest) as [e [Hr ->]].
    now exists e.
Qed.

(** Every call of the loop carries the payload the loop was given. *)
Lemma try_models_payload (models : list string) (e0 : value) :
  Forall (fun a => payload a = p) (snd (try_models fetch key p models e0)).
Proof.
  revert e0. induction models as [|m models IH]; intros e0; simpl.
  - constructor.
  - destruct (try_model _) as [t|e]; simpl.
    + repeat constructor.
    + specialize (IH e).
      destruct (try_models fetch key p models e) as [resp calls].
      simpl in *. now constructor.
Qed.

(** The loop throws nothing when it starts from a [lastError] that
    converts: it answers 200 with a truthy text or 503. *)
Lemma try_models_answer (models : list string) (e0 : value) :
  converts e0 = true ->
  exists r,
    fst (try_models fetch key p models e0) = Normal r /\
    ((status r = 200 /\ exists t, body r = ResultBody t /\ truthy t = true)
     \/ (status r = 503 /\ exists e, body r = ErrorBody e)).
Proof.
  revert e0. induction models as [|m models IH]; intros e0 He0; simpl.
  - rewrite (all_failed_converting _ He0). eexists. split; [reflexivity|].
    right. split; [reflexivity|]. eexists. reflexivity.
  - destruct (try_model (fetch (model_url m key) p)) as [t|e] eqn:Hm.
    + eexists. split; [reflexivity|]. left. split; [reflexivity|].
      exists t. split; [reflexivity|].
      destruct (fetch (model_url m key) p) as [msg | [|] json]; simpl in Hm;
        try discriminate.
      * destruct (candidate_text json) as [t'|msg]; [|discriminate].
        destruct (truthy t') eqn:Ht; [|discriminate].
        now injection Hm as <-.
      * destruct (api_error json) as [v|msg]; [|discriminate].
        destruct (interpolate v); discriminate.
    + destruct (IH e (try_model_continue_converts _ _ Hm)) as (r & Hr & H).
      destruct (try_models fetch key p models e) as [resp calls].
      simpl in *. now exists r.
Qed.

End Loop.

(** A request that passes both checks of the handler, and whose prompt is
    built, goes to the loop. *)
Lemma POST_dispatch fetch models env body img p :
  truthy (apiKey env) = true ->
  prop_opt body "image" = VStr img ->
  img <> EmptyString ->
  payload_of body img = Normal p ->
  exists r,
    try_models fetch (to_string (apiKey env)) p models (VStr "Unknown error")
    = (Normal r, snd (POST_with fetch models env (Normal body)))
    /\ fst (POST_with fetch models env (Normal body)) = r.
Proof.
  intros Hkey Himg Hne Hp. unfold POST_with, handle. rewrite Hkey. simpl.
  destruct body; try discriminate Himg.
  simpl in *. rewrite Himg. simpl.
  destruct img; [contradiction|]. simpl.
  unfold payload_of in Hp. simpl in Hp. rewrite Hp.
  destruct (try_models_answer fetch (to_string (apiKey env)) p models
              (VStr "Unknown error") eq_refl) as (r & Hr & _).
  destruct (try_models fetch (to_string (apiKey env)) p models
              (VStr "Unknown error")) as [answer calls].
  simpl in Hr. subst answer. now exists r.
Qed.

(** The same, as an equation for the answer. *)
Lemma POST_dispatch_eq fetch models env body img p r calls :
  truthy (apiKey env) = true ->
  prop_opt body "image" = VStr img ->
  img <> EmptyString ->
  payload_of body img = Normal p ->
  try_models fetch (to_string (apiKey env)) p models (VStr "Unknown error")
  = (Normal r, calls) ->
  POST_with fetch models env (Normal body) = (r, calls).
Proof.
  intros Hkey Himg Hne Hp Hloop.
  destruct (POST_dispatch fetch models env body img p Hkey Himg Hne Hp)
    as (r' & E & Hr').
  rewrite Hloop in E. injection E as E1 E2. rewrite E1, E2, <- Hr'.
  now destruct (POST_with fetch models env (Normal body)).
Qed.

(** The prompt after [.trim()]: the leading line break goes, and at the end
    everything after the last code unit that is not a space. *)
Lemma prompt_template_trimmed (l s : string) :
  trim (prompt_template l s)
  = prompt_head l ++ "User symptoms:"
    ++ trimEnd (" " ++ s ++ nl ++ "    ").
Proof.
  unfold trim.
  assert (E : prompt_template l s =
              (nl ++ prompt_head l ++ "User symptoms")
              ++ String ":" (" " ++ s ++ nl ++ "    ")).
  { unfold prompt_template, prompt_head, nl. cbn.
    rewrite !append_assoc. reflexivity. }
  rewrite E, trimEnd_app_nonspace by reflexivity.
  unfold prompt_head, nl. cbn -[trimEnd].
  rewrite !append_assoc. reflexivity.
Qed.

Lemma promptText_shape (visionAnalysis symptoms : value) :
  converts (label_value visionAnalysis) = true ->
  converts (symptoms_value symptoms) = true ->
  promptText visionAnalysis symptoms =
    Normal (prompt_head (to_string (label_value visionAnalysis))
            ++ "User symptoms:"
            ++ trimEnd (" " ++ to_string (symptoms_value symptoms)
                        ++ nl ++ "    ")).
Proof.
  intros Hl Hs. unfold promptText, interpolate. rewrite Hl, Hs. simpl.
  now rewrite prompt_template_trimmed.
Qed.

(** A prompt whose symptom text ends with a code unit that is not a
    space. *)
Lemma prompt_tail (x : string) (c : ascii) :
  is_space c = false ->
  "User symptoms:" ++ trimEnd (" " ++ (x ++ String c EmptyString)
                               ++ nl ++ "    ")
  = "User symptoms: " ++ x ++ String c EmptyString.
Proof.
  intros Hc.
  replace (" " ++ (x ++ String c EmptyString) ++ nl ++ "    ")
    with ((" " ++ x) ++ String c (nl ++ "    "))
    by (rewrite !append_assoc; reflexivity).
  rewrite trimEnd_app_nonspace by exact Hc. reflexivity.
Qed.

Lemma falsy_converts (v : value) : truthy v = false -> converts v = true.
Proof. destruct v; simpl; try reflexivity; discriminate. Qed.

Lemma nullish_falsy (v : value) : is_nullish v = true -> truthy v = false.
Proof.
  destruct v; simpl; intros H; try discriminate; reflexivity.
Qed.

Lemma label_value_nullish (visionAnalysis : value) :
  is_nullish visionAnalysis = true ->
  label_value visionAnalysis = VStr "unknown".
Proof.
  destruct visionAnalysis; simpl; intros H; try discriminate; reflexivity.
Qed.

Lemma symptoms_value_falsy (symptoms : value) :
  truthy symptoms = false -> symptoms_value symptoms = VStr "not provided".
Proof.
  intros H. unfold symptoms_value, or_else. now rewrite H.
Qed.

Lemma symptoms_value_truthy (symptoms : value) :
  truthy symptoms = true -> symptoms_value symptoms = symptoms.
Proof.
  intros H. unfold symptoms_value, or_else. now rewrite H.
Qed.

(** No call of [fetch] is made unless a key was found and the body has an
    image. *)
Lemma calls_need_key_and_image fetch models env req_json :
  snd (POST_with fetch models env req_json) <> [] ->
  truthy (apiKey env) = true /\
  exists body, req_json = Normal body /\ truthy (prop_opt body "image") = true.
Proof.
  unfold POST_with, handle.
  destruct (truthy (apiKey env)); simpl; [|intros H; now elim H].
  destruct req_json as [body|m]; simpl; [|intros H; now elim H].
  destruct (is_nullish body); simpl; [intros H; now elim H|].
  destruct (truthy (prop_opt body "image")) eqn:Himg; simpl;
    [|intros H; now elim H].
  intros _. split; [reflexivity|]. exists body. now split.
Qed.

End RouteFacts.

Module RouteClaims.
Import JS Route JSFacts RouteFacts.

(** C1. For a request that passes the two checks and whose prompt is
    built, and a list of models in which the calls for the first K-1 models
    fail (transport error, error status, or no text) and the call for the
    Kth gives text, the handler answers 200 with that text, and the calls it
    made are exactly those for the first K models, in list order: K calls,
    none for the models after the Kth. *)
Theorem first_success_wins
        (fetch : string -> Payload -> fetch_result) (env : Env)
        (body : value) (img : string) (p : Payload)
        (pre post : list string) (m : string) (t : value) :
  truthy (apiKey env) = true ->
  prop_opt body "image" = VStr img ->
  img <> EmptyString ->
  payload_of body img = Normal p ->
  Forall (fun m' =>
            failed (fetch (model_url m' (to_string (apiKey env))) p) = true)
         pre ->
  succeeded (fetch (model_url m (to_string (apiKey env))) p) = Some t ->
  POST_with fetch (pre ++ m :: post) env (Normal body) =
    ({| status := 200; body := ResultBody t |},
     map (call_of (to_string (apiKey env)) p)
         (firstn (S (List.length pre)) (pre ++ m :: post)))
  /\ List.length (snd (POST_with fetch (pre ++ m :: post) env (Normal body)))
     = S (List.length pre).
Proof.
  intros Hkey Himg Hne Hp Hpre Hm.
  assert (Hfirst : firstn (S (List.length pre)) (pre ++ m :: post)
                   = (pre ++ [m])%list).
  { replace (S (List.length pre)) with (List.length pre + 1) by lia.
    now rewrite firstn_app_2. }
  rewrite (POST_dispatch_eq fetch _ env body img p _ _ Hkey Himg Hne Hp
             (try_models_first_success _ _ _ pre post m t _ Hpre Hm)).
  rewrite Hfirst. split; [reflexivity|].
  simpl. rewrite length_map, length_app. simpl. lia.
Qed.

Lemma first_success_wins_witness :
  POST net_second_answers env_with_key (Normal sample_body) =
    ({| status := 200;
        body := ResultBody (VStr "Likely eczema. Low risk.") |},
     map (call_of "test-key"
            {| text := prompt_head "unknown"
                       ++ "User symptoms: itching,redness";
               mime_type := "image/png";
               data := "iVBORw0KGgo=" |})
         [ "gemini-2.0-flash"; "gemini-2.0-pro" ])
  /\ List.length
       (snd (POST net_second_answers env_with_key (Normal sample_body)))
     = 2.
Proof.
  apply (first_success_wins net_second_answers env_with_key sample_body
           sample_image
           {| text := prompt_head "unknown"
                      ++ "User symptoms: itching,redness";
              mime_type := "image/png";
              data := "iVBORw0KGgo=" |}
           [ "gemini-2.0-flash" ]
           [ "gemini-1.5-flash"; "gemini-1.5-pro" ] "gemini-2.0-pro"
           (VStr "Likely eczema. Low risk.")).
  - reflexivity.
  - reflexivity.
  - discriminate.
  - reflexivity.
  - repeat constructor.
  - reflexivity.
Defined.

(** C3. For a request that passes the two checks and whose prompt is
    built, when the calls for all the models of the list fail, the handler
    answers 503 after one call per model, and the message it reports is the
    fixed prefix followed by the reason of the last call alone: the message
    of the error when the call was rejected; for an error status, the
    [error.message] of the body when it is truthy (or the TypeError's
    message when that value does not convert), and else
    "Unknown API error"; for an ok answer without text,
    "Model returned no text"; for a body that is [null], the TypeError's
    message. *)
Theorem all_models_fail
        (fetch : string -> Payload -> fetch_result) (env : Env)
        (body : value) (img : string) (p : Payload)
        (pre : list string) (m : string) :
  truthy (apiKey env) = true ->
  prop_opt body "image" = VStr img ->
  img <> EmptyString ->
  payload_of body img = Normal p ->
  Forall (fun m' =>
            failed (fetch (model_url m' (to_string (apiKey env))) p) = true)
         (pre ++ [m]) ->
  POST_with fetch (pre ++ [m]) env (Normal body) =
    ({| status := 503;
        body :=
          ErrorBody
            ("All Gemini models failed. Last error: "
             ++ match fetch (model_url m (to_string (apiKey env))) p with
                | Rejects message => message
                | Resolves true json =>
                    if is_nullish json
                    then "Cannot read properties of " ++ to_string json
                         ++ " (reading 'candidates')"
                    else "Model returned no text"
                | Resolves false json =>
                    if is_nullish json
                    then "Cannot read properties of " ++ to_string json
                         ++ " (reading 'error')"
                    else if truthy (prop_opt (prop_opt json "error")
                                             "message")
                    then if converts (prop_opt (prop_opt json "error")
                                               "message")
                         then to_string (prop_opt (prop_opt json "error")
                                                  "message")
                         else "Cannot convert object to primitive value"
                    else "Unknown API error"
                end) |},
     map (call_of (to_string (apiKey env)) p) (pre ++ [m])).
Proof.
  intros Hkey Himg Hne Hp Hall.
  destruct (try_models_all_fail fetch (to_string (apiKey env)) p pre m
              (VStr "Unknown error") Hall) as (e & He & Hloop).
  rewrite (all_failed_converting e (try_model_continue_converts _ _ He))
    in Hloop.
  rewrite (POST_dispatch_eq fetch _ env body img p _ _ Hkey Himg Hne Hp
             Hloop).
  assert (Hm : failed (fetch (model_url m (to_string (apiKey env))) p)
               = true).
  { rewrite Forall_forall in Hall. apply Hall, in_or_app. right. now left. }
  do 3 f_equal.
  destruct (fetch (model_url m (to_string (apiKey env))) p)
    as [message | [|] json]; simpl in He, Hm.
  - now injection He as <-.
  - unfold extractable_text in Hm.
    destruct (is_nullish json) eqn:Hn.
    + assert (Hct : candidate_text json
                    = Throw ("Cannot read properties of " ++ to_string json
                             ++ " (reading 'candidates')"))
        by (unfold candidate_text, prop; now rewrite Hn).
      rewrite Hct in He. now injection He as <-.
    + destruct (candidate_text json) as [t|msg] eqn:Hct.
      * destruct (truthy t); [discriminate|]. now injection He as <-.
      * unfold candidate_text, prop in Hct. rewrite Hn in Hct.
        discriminate.
  - unfold api_error, prop in He.
    destruct (is_nullish json); simpl in He.
    + now injection He as <-.
    + unfold or_else, interpolate in He.
      destruct (truthy (prop_opt (prop_opt json "error") "message")).
      * destruct (converts (prop_opt (prop_opt json "error") "message"));
          now injection He as <-.
      * simpl in He. now injection He as <-.
Qed.

Lemma all_models_fail_witness :
  POST net_all_fail env_with_key (Normal sample_body) =
    ({| status := 503;
        body := ErrorBody
                  "All Gemini models failed. Last error: quota exceeded" |},
     map (call_of "test-key"
            {| text := prompt_head "unknown"
                       ++ "User symptoms: itching,redness";
               mime_type := "image/png";
               data := "iVBORw0KGgo=" |})
         MODELS_TO_TRY).
Proof.
  apply (all_models_fail net_all_fail env_with_key sample_body sample_image
           {| text := prompt_head "unknown"
                      ++ "User symptoms: itching,redness";
              mime_type := "image/png";
              data := "iVBORw0KGgo=" |}
           [ "gemini-2.0-flash"; "gemini-2.0-pro"; "gemini-1.5-flash" ]
           "gemini-1.5-pro").
  - reflexivity.
  - reflexivity.
  - discriminate.
  - reflexivity.
  - repeat constructor.
Defined.

(** C4. Without a key in the environment the handler answers 500
    ("Missing GEMINI_API_KEY") whatever the request; with a key and a body
    whose [image] is missing or falsy it answers 400 ("Image not provided");
    in both cases no call of [fetch] is made, and no call is ever made
    unless a key was found and the image is there. *)
Theorem checks_precede_network
        (fetch : string -> Payload -> fetch_result) (models : list string)
        (env : Env) (req_json : completion value) :
  (truthy (apiKey env) = false ->
   POST_with fetch models env req_json =
     ({| status := 500; body := ErrorBody "Missing GEMINI_API_KEY" |}, []))
  /\ (forall body,
        truthy (apiKey env) = true ->
        req_json = Normal body ->
        is_nullish body = false ->
        truthy (prop_opt body "image") = false ->
        POST_with fetch models env req_json =
          ({| status := 400; body := ErrorBody "Image not provided" |}, []))
  /\ (snd (POST_with fetch models env req_json) <> [] ->
      truthy (apiKey env) = true /\
      exists body,
        req_json = Normal body /\ truthy (prop_opt body "image") = true).
Proof.
  split; [|split].
  - intros Hkey. unfold POST_with. now rewrite Hkey.
  - intros body Hkey -> Hbody Himg. unfold POST_with, handle.
    rewrite Hkey. simpl. rewrite Hbody, Himg. reflexivity.
  - apply calls_need_key_and_image.
Qed.

Lemma checks_precede_network_witness :
  POST net_second_answers env_without_key (Normal sample_body) =
    ({| status := 500; body := ErrorBody "Missing GEMINI_API_KEY" |}, [])
  /\ POST net_second_answers env_with_key (Normal body_without_image) =
       ({| status := 400; body := ErrorBody "Image not provided" |}, []).
Proof.
  split.
  - apply (proj1 (checks_precede_network net_second_answers MODELS_TO_TRY
                    env_without_key (Normal sample_body))).
    reflexivity.
  - apply (proj1 (proj2 (checks_precede_network net_second_answers
                           MODELS_TO_TRY env_with_key
                           (Normal body_without_image)))
             body_without_image); reflexivity.
Defined.

(** C7. For a request that passes the two checks, every call the handler
    makes carries the one payload built from the request before the loop.
    Its prompt is the fixed text with two values put in: the label of
    [visionAnalysis] when it is truthy and "unknown" when it is not, in
    particular when [visionAnalysis] is [null] or missing; the symptoms
    when they are truthy and "not provided" when they are not, in
    particular when they are [null] or missing.  A label and a symptom
    text that are there are put in as they are. *)
Theorem one_prompt_per_request
        (fetch : string -> Payload -> fetch_result) (models : list string)
        (env : Env) (body : value) (img : string) :
  truthy (apiKey env) = true ->
  prop_opt body "image" = VStr img ->
  img <> EmptyString ->
  Forall (fun a => payload_of body img = Normal (payload a))
         (snd (POST_with fetch models env (Normal body)))
  /\ (converts (prop_opt (prop_opt body "visionAnalysis") "label") = true ->
      converts (prop_opt body "symptoms") = true ->
      payload_of body img =
        Normal
          {| text :=
               prompt_head
                 (if truthy (prop_opt (prop_opt body "visionAnalysis")
                                      "label")
                  then to_string (prop_opt (prop_opt body "visionAnalysis")
                                           "label")
                  else "unknown")
               ++ "User symptoms:"
               ++ trimEnd (" "
                           ++ (if truthy (prop_opt body "symptoms")
                               then to_string (prop_opt body "symptoms")
                               else "not provided")
                           ++ nl ++ "    ");
             mime_type := mimeType img;
             data := base64Data img |})
  /\ (is_nullish (prop_opt body "visionAnalysis") = true ->
      is_nullish (prop_opt body "symptoms") = true ->
      payload_of body img =
        Normal {| text := prompt_head "unknown"
                          ++ "User symptoms: not provided";
                  mime_type := mimeType img;
                  data := base64Data img |})
  /\ (forall l x c,
        prop_opt (prop_opt body "visionAnalysis") "label" = VStr l ->
        l <> EmptyString ->
        prop_opt body "symptoms" = VStr (x ++ String c EmptyString) ->
        is_space c = false ->
        payload_of body img =
          Normal {| text := prompt_head l
                            ++ "User symptoms: " ++ x ++ String c EmptyString;
                    mime_type := mimeType img;
                    data := base64Data img |}).
Proof.
  intros Hkey Himg Hne.
  assert (Hgen :
            converts (prop_opt (prop_opt body "visionAnalysis") "label")
            = true ->
            converts (prop_opt body "symptoms") = true ->
            payload_of body img =
              Normal
                {| text :=
                     prompt_head
                       (if truthy (prop_opt (prop_opt body "visionAnalysis")
                                            "label")
                        then to_string
                               (prop_opt (prop_opt body "visionAnalysis")
                                         "label")
                        else "unknown")
                     ++ "User symptoms:"
                     ++ trimEnd (" "
                                 ++ (if truthy (prop_opt body "symptoms")
                                     then to_string (prop_opt body "symptoms")
                                     else "not provided")
                                 ++ nl ++ "    ");
                   mime_type := mimeType img;
                   data := base64Data img |}).
  { intros Hl Hs. unfold payload_of, build_payload.
    rewrite promptText_shape.
    - unfold label_value, symptoms_value, or_else.
      destruct (truthy (prop_opt (prop_opt body "visionAnalysis") "label"));
        destruct (truthy (prop_opt body "symptoms")); reflexivity.
    - unfold label_value, or_else.
      destruct (truthy (prop_opt (prop_opt body "visionAnalysis") "label"));
        [exact Hl | reflexivity].
    - unfold symptoms_value, or_else.
      destruct (truthy (prop_opt body "symptoms")); [exact Hs | reflexivity]. }
  split; [|split; [exact Hgen | split]].
  - destruct (payload_of body img) as [p|msg] eqn:Hp.
    + destruct (POST_dispatch fetch models env body img p Hkey Himg Hne Hp)
        as (r & Hloop & _).
      pose proof (try_models_payload fetch (to_string (apiKey env)) p models
                    (VStr "Unknown error")) as Hall.
      rewrite Hloop in Hall. simpl in Hall.
      eapply Forall_impl; [|exact Hall]. intros a Ha. now rewrite Ha.
    + unfold POST_with, handle. rewrite Hkey. simpl.
      destruct body; try discriminate Himg. simpl in *. rewrite Himg.
      destruct img; [contradiction|]. simpl.
      unfold payload_of in Hp. simpl in Hp. rewrite Hp. constructor.
  - intros Hva Hsy.
    assert (Hl : prop_opt (prop_opt body "visionAnalysis") "label" = VUndef)
      by (destruct (prop_opt body "visionAnalysis"); try discriminate;
          reflexivity).
    rewrite Hgen.
    + rewrite Hl, (nullish_falsy _ Hsy). reflexivity.
    + now rewrite Hl.
    + apply falsy_converts, nullish_falsy, Hsy.
  - intros l x c Hl Hne' Hs Hc.
    rewrite Hgen.
    + rewrite Hl, Hs. simpl truthy.
      destruct l; [contradiction|]. simpl negb. cbv iota.
      rewrite is_empty_app_cons'. simpl negb. cbv iota.
      simpl to_string. now rewrite prompt_tail.
    + now rewrite Hl.
    + now rewrite Hs.
Qed.

Lemma one_prompt_per_request_witness :
  Forall (fun a => payload_of body_with_label sample_image
                   = Normal (payload a))
         (snd (POST net_all_fail env_with_key (Normal body_with_label)))
  /\ payload_of body_with_label sample_image =
       Normal
         {| text :=
              "You are a dermatology assistant AI.  " ++ nl ++
              "Analyze this skin image and provide:" ++ nl ++
              nl ++
              "1. **Likely condition(s)**  " ++ nl ++
              "2. **Risk level**  " ++ nl ++
              "3. **Whether the user should see a doctor**  " ++ nl ++
              "4. **Possible causes**  " ++ nl ++
              "5. **Non-medical general advice**" ++ nl ++
              nl ++
              "DO NOT give medical diagnosis. Give safe recommendations."
              ++ nl ++
              nl ++
              "VISION AI result: mole" ++ nl ++
              "User symptoms: itching on the left arm";
            mime_type := "image/png";
            data := "iVBORw0KGgo=" |}
  /\ payload_of body_without_symptoms sample_image =
       Normal
         {| text :=
              "You are a dermatology assistant AI.  " ++ nl ++
              "Analyze this skin image and provide:" ++ nl ++
              nl ++
              "1. **Likely condition(s)**  " ++ nl ++
              "2. **Risk level**  " ++ nl ++
              "3. **Whether the user should see a doctor**  " ++ nl ++
              "4. **Possible causes**  " ++ nl ++
              "5. **Non-medical general advice**" ++ nl ++
              nl ++
              "DO NOT give medical diagnosis. Give safe recommendations."
              ++ nl ++
              nl ++
              "VISION AI result: unknown" ++ nl ++
              "User symptoms: not provided";
            mime_type := "image/png";
            data := "iVBORw0KGgo=" |}.
Proof.
  destruct (one_prompt_per_request net_all_fail MODELS_TO_TRY env_with_key
              body_with_label sample_image)
    as (Hall & _ & _ & Hpresent);
    [reflexivity | reflexivity | discriminate |].
  destruct (one_prompt_per_request net_all_fail MODELS_TO_TRY env_with_key
              body_without_symptoms sample_image)
    as (_ & _ & Habsent & _);
    [reflexivity | reflexivity | discriminate |].
  split; [exact Hall|]. split.
  - apply (Hpresent "mole" "itching on the left ar" "m"%char);
      [reflexivity | discriminate | reflexivity | reflexivity].
  - apply Habsent; reflexivity.
Defined.

(** C10. The default "not provided" is used exactly when [symptoms] is
    falsy; a truthy value that converts is put in as its string, whatever
    its kind.  An empty array is truthy and converts to the empty string,
    so the prompt ends with the bare "User symptoms:"; an array of strings
    is put in as its elements joined by commas, and the request goes on to
    the first model with that prompt.  A value that does not convert, such
    as an array holding an object with a [toString] key of its own, makes
    the template throw: the answer is 500 and no model is called. *)
Theorem symptoms_default_only_when_falsy (visionAnalysis : value) :
  converts (label_value visionAnalysis) = true ->
  (forall symptoms,
      truthy symptoms = false ->
      promptText visionAnalysis symptoms =
        Normal (prompt_head (to_string (label_value visionAnalysis))
                ++ "User symptoms: not provided"))
  /\ (forall symptoms,
        truthy symptoms = true ->
        converts symptoms = true ->
        promptText visionAnalysis symptoms =
          Normal (prompt_head (to_string (label_value visionAnalysis))
                  ++ "User symptoms:"
                  ++ trimEnd (" " ++ to_string symptoms ++ nl ++ "    ")))
  /\ (forall symptoms,
        converts symptoms = false ->
        promptText visionAnalysis symptoms =
          Throw "Cannot convert object to primitive value")
  /\ (truthy (VArr []) = true /\
      to_string (VArr []) = EmptyString /\
      promptText visionAnalysis (VArr []) =
        Normal (prompt_head (to_string (label_value visionAnalysis))
                ++ "User symptoms:"))
  /\ (forall l,
        converts (VArr (map VStr l)) = true /\
        to_string (VArr (map VStr l)) = String.concat "," l)
  /\ (forall l x c,
        String.concat "," l = x ++ String c EmptyString ->
        is_space c = false ->
        promptText visionAnalysis (VArr (map VStr l)) =
          Normal (prompt_head (to_string (label_value visionAnalysis))
                  ++ "User symptoms: " ++ String.concat "," l))
  /\ (forall x c,
        is_space c = false ->
        promptText visionAnalysis (VStr (x ++ String c EmptyString)) =
          Normal (prompt_head (to_string (label_value visionAnalysis))
                  ++ "User symptoms: " ++ x ++ String c EmptyString))
  /\ (forall fetch env body img m ms elems,
        truthy (apiKey env) = true ->
        prop_opt body "image" = VStr img ->
        img <> EmptyString ->
        prop_opt body "visionAnalysis" = visionAnalysis ->
        prop_opt body "symptoms" = VArr elems ->
        converts (VArr elems) = true ->
        hd_error (snd (POST_with fetch (m :: ms) env (Normal body))) =
          Some (call_of (to_string (apiKey env))
                  {| text :=
                       prompt_head (to_string (label_value visionAnalysis))
                       ++ "User symptoms:"
                       ++ trimEnd (" " ++ to_string (VArr elems)
                                   ++ nl ++ "    ");
                     mime_type := mimeType img;
                     data := base64Data img |}
                  m))
  /\ (forall fetch models env body img,
        truthy (apiKey env) = true ->
        prop_opt body "image" = VStr img ->
        img <> EmptyString ->
        prop_opt body "visionAnalysis" = visionAnalysis ->
        converts (prop_opt body "symptoms") = false ->
        POST_with fetch models env (Normal body) =
          ({| status := 500;
              body :=
                ErrorBody ("Internal server error: "
                           ++ "Cannot convert object to primitive value") |},
           [])).
Proof.
  intros Hlabel.
  assert (Htruthy : forall symptoms,
             truthy symptoms = true ->
             converts symptoms = true ->
             promptText visionAnalysis symptoms =
               Normal (prompt_head (to_string (label_value visionAnalysis))
                       ++ "User symptoms:"
                       ++ trimEnd (" " ++ to_string symptoms
                                   ++ nl ++ "    "))).
  { intros symptoms Ht Hc.
    rewrite promptText_shape; rewrite ?(symptoms_value_truthy _ Ht); auto. }
  assert (Hstrings : forall l, converts (VArr (map VStr l)) = true).
  { induction l as [|s l IH]; [reflexivity | exact IH]. }
  assert (Hthrow : forall symptoms,
             converts symptoms = false ->
             promptText visionAnalysis symptoms =
               Throw "Cannot convert object to primitive value").
  { intros symptoms Hc. unfold promptText, interpolate. rewrite Hlabel.
    simpl.
    assert (Ht : truthy symptoms = true)
      by (destruct symptoms; try discriminate; reflexivity).
    rewrite (symptoms_value_truthy _ Ht), Hc. reflexivity. }
  repeat match goal with |- _ /\ _ => split end.
  - intros symptoms H.
    rewrite promptText_shape; rewrite ?(symptoms_value_falsy _ H); auto.
  - exact Htruthy.
  - exact Hthrow.
  - reflexivity.
  - reflexivity.
  - now rewrite Htruthy.
  - intros l. split; [apply Hstrings | apply to_string_strings].
  - intros l x c Hl Hc.
    assert (Hne : truthy (VArr (map VStr l)) = true) by reflexivity.
    rewrite (Htruthy _ Hne (Hstrings l)), (to_string_strings l), Hl.
    now rewrite prompt_tail.
  - intros x c Hc. rewrite Htruthy.
    + simpl to_string. now rewrite prompt_tail.
    + simpl. now rewrite is_empty_app_cons'.
    + reflexivity.
  - intros fetch env body img m ms elems Hkey Himg Hne Hva Hsy Hconv.
    assert (Hp : payload_of body img =
                 Normal {| text :=
                             prompt_head
                               (to_string (label_value visionAnalysis))
                             ++ "User symptoms:"
                             ++ trimEnd (" " ++ to_string (VArr elems)
                                         ++ nl ++ "    ");
                           mime_type := mimeType img;
                           data := base64Data img |}).
    { unfold payload_of, build_payload. rewrite Hva, Hsy.
      now rewrite (Htruthy (VArr elems) eq_refl Hconv). }
    destruct (POST_dispatch fetch (m :: ms) env body img _ Hkey Himg Hne Hp)
      as (r & Hloop & _).
    simpl in Hloop.
    destruct (try_model _) in Hloop.
    + injection Hloop as _ <-. reflexivity.
    + destruct (try_models _ _ _ _ _) in Hloop.
      injection Hloop as _ <-. reflexivity.
  - intros fetch models env body img Hkey Himg Hne Hva Hconv.
    unfold POST_with, handle. rewrite Hkey. simpl.
    destruct body; try discriminate Himg. simpl in *. rewrite Himg.
    destruct img; [contradiction|]. simpl.
    unfold build_payload. rewrite Hva, (Hthrow _ Hconv). reflexivity.
Qed.

Lemma symptoms_default_only_when_falsy_witness :
  promptText VNull (VStr EmptyString) =
    Normal (prompt_head "unknown" ++ "User symptoms: not provided")
  /\ promptText VNull (VArr [VStr "itching"; VStr "redness"]) =
       Normal (prompt_head "unknown" ++ "User symptoms: itching,redness")
  /\ promptText VNull (VStr "itching") =
       Normal (prompt_head "unknown" ++ "User symptoms: itching")
  /\ hd_error (snd (POST net_all_fail env_with_key (Normal sample_body))) =
       Some (call_of "test-key"
               {| text := prompt_head "unknown"
                          ++ "User symptoms: itching,redness";
                  mime_type := "image/png";
                  data := "iVBORw0KGgo=" |}
               "gemini-2.0-flash")
  /\ POST net_all_fail env_with_key (Normal body_not_converting) =
       ({| status := 500;
           body :=
             ErrorBody
               "Internal server error: Cannot convert object to primitive value" |},
        []).
Proof.
  destruct (symptoms_default_only_when_falsy VNull eq_refl)
    as (Hfalsy & _ & _ & _ & _ & Hjoin & Hstr & Hcall & _).
  destruct (symptoms_default_only_when_falsy VUndef eq_refl)
    as (_ & _ & _ & _ & _ & _ & _ & _ & Hthrow).
  split; [|split; [|split; [|split]]].
  - apply (Hfalsy (VStr EmptyString)). reflexivity.
  - apply (Hjoin ["itching"; "redness"] "itching,rednes" "s"%char);
      reflexivity.
  - apply (Hstr "itchin" "g"%char). reflexivity.
  - apply (Hcall net_all_fail env_with_key sample_body sample_image
             "gemini-2.0-flash"
             [ "gemini-2.0-pro"; "gemini-1.5-flash"; "gemini-1.5-pro" ]
             [VStr "itching"; VStr "redness"] eq_refl eq_refl);
      [discriminate | reflexivity | reflexivity | reflexivity].
  - apply (Hthrow net_all_fail MODELS_TO_TRY env_with_key
             body_not_converting sample_image eq_refl eq_refl);
      [discriminate | reflexivity | reflexivity].
Defined.

End RouteClaims.

(* ================================================================== *)
(** ** The wizard: properties *)
(* ================================================================== *)

Module PageFacts.
Import JS Page JSFacts.

(** Effects touch the browser, never the component's state. *)
Lemma run_effects_app (effs : list effect) (w : World) :
  app (fold_left run_effect effs w) = app w.
Proof.
  revert w. induction effs as [|e effs IH]; intros w; simpl; [reflexivity|].
  rewrite IH. now destruct e.
Qed.

Lemma handled_app (w : World) (r : App * list effect) :
  app (handled w r) = fst r.
Proof.
  unfold handled. now rewrite run_effects_app.
Qed.


Lemma run_reachable (evs : list event) (w w' : World) :
  reachable w -> run w evs = Some w' -> reachable w'.
Proof.
  revert w. induction evs as [|ev evs IH]; intros w Hw; simpl.
  - now intros [= <-].
  - destruct (step w ev) as [w1|] eqn:Hstep; [|discriminate].
    apply IH. eapply reach_step; eassumption.
Qed.

(** *** The symptom text *)



(** *** The risk score *)

Lemma proceedToResults_risk_score (a : App) :
  risk_score (scanSession (fst (proceedToResults a)))
  = risk_score (scanSession a).
Proof.
  unfold proceedToResults.
  now destruct (parse_symptoms (symptomsInput a)).
Qed.

Lemma report_settled_risk_score (r : report_result) (a : App) :
  risk_score (scanSession (report_settled r a)) = risk_score (scanSession a).
Proof.
  unfold report_settled. destruct (report_try r) as [v|m]; [|reflexivity].
  now destruct (truthy v).
Qed.

Lemma vision_settled_risk_score (r : completion (list value)) (a : App) :
  risk_score (scanSession (fst (analyzeWithVisionAI_settled r a)))
  = risk_score (scanSession a).
Proof. now destruct r. Qed.

(** An event leaves the risk score as it is, or, for a reset, puts back
    the initial 0. *)
Lemma step_risk_score (w w' : World) (ev : event) :
  step w ev = Some w' ->
  risk_score (scanSession (app w')) = risk_score (scanSession (app w))
  \/ risk_score (scanSession (app w')) = 0%Z.
Proof.
  destruct ev; simpl.
  - destruct (on_screen landing w); [|discriminate].
    intros [= <-]. now left.
  - destruct (on_screen landing w); [|discriminate].
    intros [= <-]. left. now rewrite handled_app.
  - destruct (on_screen scan w); [|discriminate].
    intros [= <-]. left. now rewrite handled_app.
  - destruct (on_screen scan w); [|discriminate].
    intros [= <-]. left. now rewrite handled_app.
  - destruct (on_screen scan w && negb (isAnalyzing (app w)));
      [|discriminate].
    intros [= <-]. left. now rewrite handled_app.
  - destruct (file_reads w); [discriminate|].
    intros [= <-]. left. now rewrite handled_app.
  - destruct (on_screen triage w); [|discriminate].
    intros [= <-]. now left.
  - destruct (on_screen triage w); [|discriminate].
    intros [= <-]. now left.
  - destruct (on_screen triage w && negb (isVisionLoading (app w)));
      [|discriminate].
    intros [= <-]. left. rewrite handled_app.
    apply proceedToResults_risk_score.
  - destruct (on_screen results w); [|discriminate].
    intros [= <-]. right. now rewrite handled_app.
  - destruct (on_screen information w || on_screen about w);
      [|discriminate].
    intros [= <-]. left. now rewrite handled_app.
  - destruct (min_due (timers w)) as [d|].
    + destruct (N.leb (now w + ms) d); [|discriminate].
      intros [= <-]. now left.
    + intros [= <-]. now left.
  - destruct (min_due (timers w)) as [d|]; [|discriminate].
    destruct (take_due d (timers w)) as [[t rest]|]; [|discriminate].
    intros [= <-]. left. rewrite handled_app. now destruct t.
  - destruct (nth_error (vision_calls w) k); [|discriminate].
    intros [= <-]. left. rewrite handled_app.
    apply vision_settled_risk_score.
  - destruct (nth_error (report_calls w) k); [|discriminate].
    intros [= <-]. left. apply report_settled_risk_score.
Qed.

Lemma run_risk_score (evs : list event) (w w' : World) :
  risk_score (scanSession (app w)) = 0%Z ->
  run w evs = Some w' ->
  risk_score (scanSession (app w')) = 0%Z.
Proof.
  revert w. induction evs as [|ev evs IH]; intros w Hw; simpl.
  - now intros [= <-].
  - destruct (step w ev) as [w1|] eqn:Hstep; [|discriminate].
    apply IH. destruct (step_risk_score _ _ _ Hstep) as [H|H]; congruence.
Qed.

End PageFacts.

Module PageClaims.
Import JS Page JSFacts PageFacts.



(** C9. After any run of events from the initial state the session's risk
    score is 0. *)
Theorem risk_score_is_always_zero (evs : list event) (w : World) :
  run initial_world evs = Some w ->
  risk_score (scanSession (app w)) = 0%Z.
Proof.
  apply run_risk_score. reflexivity.
Qed.

Lemma risk_score_is_always_zero_witness :
  run initial_world run_to_reset = Some world_after_reset
  /\ risk_score (scanSession (app world_after_reset)) = 0%Z.
Proof.
  split; [reflexivity|].
  apply (risk_score_is_always_zero run_to_reset world_after_reset).
  reflexivity.
Defined.


(** The failures of the report request and the message of each. *)
Lemma report_failures :
  (forall m, report_try (FetchRejects m) = Throw m)
  /\ (forall status json,
        report_try (Responds false status json)
        = Throw ("API Error: " ++ to_string (VNum (Z.of_nat status))))
  /\ (forall status m, report_try (Responds true status (Throw m)) = Throw m).
Proof. repeat split. Qed.


(** C2, as the specification has it, fails.  After [run_to_reset] the
    session is the empty one of the new scan and a classification made
    before the reset is in flight; when it resolves, its result is the new
    session's classification. *)
Lemma stale_result_reaches_new_session :
  run initial_world run_to_reset = Some world_after_reset
  /\ observe world_after_reset = (1, [0], VNull)
  /\ option_map observe
       (step world_after_reset
             (VisionSettles 0 (Normal [vision_answer "rash"])))
     = Some (1, [], vision_answer "rash")
  /\ ~ stale_writes_suppressed.
Proof.
  split; [reflexivity|]. split; [reflexivity|]. split; [reflexivity|].
  intros Hclaim.
  assert (Hreach : reachable world_after_reset).
  { apply (run_reachable run_to_reset initial_world);
      [constructor | reflexivity]. }
  specialize (Hclaim world_after_reset 0
                {| imageSrc := image_B; made_after := 0 |}
                [vision_answer "rash"]
                (handled
                   (set_app (app world_after_reset)
                      {| app := app world_after_reset;
                         now := now world_after_reset;
                         timers := timers world_after_reset;
                         vision_calls := [];
                         report_calls := report_calls world_after_reset;
                         file_reads := file_reads world_after_reset;
                         resets := resets world_after_reset |})
                   (analyzeWithVisionAI_settled
                      (Normal [vision_answer "rash"])
                      (app world_after_reset)))
                Hreach eq_refl).
  simpl in Hclaim.
  assert (H : 0 < 1) by lia.
  specialize (Hclaim H eq_refl). discriminate Hclaim.
Qed.

(** C2, amended.  The write is not guarded: whenever a classification in
    flight resolves, its first datum becomes the session's classification
    and the other fields of the session stay, whatever the number of resets
    since the call was made; and a reset empties the session but leaves the
    classifications in flight. *)
Theorem classification_write_is_unguarded (w : World) :
  (forall k c d,
      nth_error (vision_calls w) k = Some c ->
      exists w',
        step w (VisionSettles k (Normal d)) = Some w'
        /\ scanSession (app w')
           = with_vision_result (hd VUndef d) (scanSession (app w))
        /\ isVisionLoading (app w') = false
        /\ vision_calls w' = remove_index k (vision_calls w)
        /\ resets w' = resets w)
  /\ (on_screen results w = true ->
      exists w',
        step w ClickNewScan = Some w'
        /\ scanSession (app w') = empty_session
        /\ vision_calls w' = vision_calls w
        /\ resets w' = S (resets w)).
Proof.
  split.
  - intros k c d Hk. simpl. rewrite Hk.
    eexists. split; [reflexivity|]. repeat split.
  - intros Hscreen. simpl. rewrite Hscreen.
    eexists. split; [reflexivity|]. repeat split.
Qed.

Lemma classification_write_is_unguarded_witness :
  nth_error (vision_calls world_after_reset) 0
    = Some {| imageSrc := image_B; made_after := 0 |}
  /\ exists w',
      step world_after_reset
           (VisionSettles 0 (Normal [vision_answer "rash"])) = Some w'
      /\ scanSession (app w')
         = with_vision_result (hd VUndef [vision_answer "rash"])
                              (scanSession (app world_after_reset))
      /\ isVisionLoading (app w') = false
      /\ vision_calls w' = remove_index 0 (vision_calls world_after_reset)
      /\ resets w' = resets world_after_reset.
Proof.
  split; [reflexivity|].
  apply (proj1 (classification_write_is_unguarded world_after_reset) 0
               {| imageSrc := image_B; made_after := 0 |}
               [vision_answer "rash"]).
  reflexivity.
Defined.

(** C6, as the specification has it, fails.  After [run_to_symptoms] the
    symptom screen is shown, a symptom is entered and the classification is
    in flight: the button that sends the symptoms is disabled, no navigation
    and no request follow. *)
Lemma submit_waits_for_classification :
  run initial_world run_to_symptoms = Some world_at_symptoms
  /\ on_screen triage world_at_symptoms = true
  /\ map imageSrc (vision_calls world_at_symptoms) = [image_A]
  /\ parse_symptoms (symptomsInput (app world_at_symptoms)) = ["itching"]
  /\ step world_at_symptoms ClickGenerateReport = None
  /\ ~ submits_without_waiting.
Proof.
  repeat (split; [reflexivity|]).
  intros Hclaim.
  assert (Hreach : reachable world_at_symptoms).
  { apply (run_reachable run_to_symptoms initial_world);
      [constructor | reflexivity]. }
  destruct (Hclaim world_at_symptoms Hreach eq_refl)
    as (w' & b & Hstep & _); try discriminate.
Qed.

(** C6, amended.  On the symptom screen the button that sends the symptoms
    is disabled while a classification is marked as running.  Otherwise,
    with a symptom entered, the click stores the symptom list, starts the
    navigation to the results (300 ms) and schedules the report request
    500 ms later, with the image and the classification the session holds
    at the click; when that timer comes due the request is sent with the
    body made at the click, whatever the session holds by then. *)
Theorem submission_is_gated_and_snapshots (w : World) :
  (on_screen triage w = true ->
   isVisionLoading (app w) = true ->
   step w ClickGenerateReport = None)
  /\ (forall s rest,
        on_screen triage w = true ->
        isVisionLoading (app w) = false ->
        parse_symptoms (symptomsInput (app w)) = s :: rest ->
        step w ClickGenerateReport =
          Some {| app := setIsTransitioning true
                           (setScanSession (with_symptoms (s :: rest))
                                           (app w));
                  now := now w;
                  timers :=
                    timers w
                    ++ [ ((now w + 300)%N, NavTimer results);
                         ((now w + 500)%N,
                          ReportTimer
                            (request_body
                               (capturedImage (app w)) (s :: rest)
                               (vision_result (scanSession (app w))))) ];
                  vision_calls := vision_calls w;
                  report_calls := report_calls w;
                  file_reads := file_reads w;
                  resets := resets w |})
  /\ (forall d b rest,
        min_due (timers w) = Some d ->
        take_due d (timers w) = Some (ReportTimer b, rest) ->
        exists w',
          step w TimerFires = Some w'
          /\ report_calls w' = (report_calls w ++ [b])%list
          /\ timers w' = rest
          /\ app w' = app w).
Proof.
  split; [|split].
  - intros Hscreen Hload. simpl. now rewrite Hscreen, Hload.
  - intros s rest Hscreen Hload Hparse. simpl.
    rewrite Hscreen, Hload. simpl.
    unfold proceedToResults. rewrite Hparse.
    unfold handled. simpl. now rewrite <- app_assoc.
  - intros d b rest Hmin Htake. simpl. rewrite Hmin, Htake.
    eexists. split; [reflexivity|]. repeat split.
Qed.

Lemma submission_is_gated_and_snapshots_witness :
  step world_at_symptoms ClickGenerateReport = None
  /\ step world_at_submission ClickGenerateReport =
       Some {| app := setIsTransitioning true
                        (setScanSession (with_symptoms ["itching"])
                                        (app world_at_submission));
               now := 2750;
               timers :=
                 [ (3050%N, NavTimer results);
                   (3250%N,
                    ReportTimer
                      (request_body (Some image_B) ["itching"]
                                    (vision_answer "mole"))) ];
               vision_calls := [ {| imageSrc := image_B; made_after := 0 |} ];
               report_calls := [];
               file_reads := 0;
               resets := 0 |}
  /\ (exists w',
        step world_before_request TimerFires = Some w'
        /\ report_calls w'
           = [ request_body (Some image_B) ["itching"]
                            (vision_answer "mole") ]
        /\ timers w' = []
        /\ app w' = app world_before_request)
  /\ vision_result (scanSession (app world_before_request))
     = vision_answer "rash".
Proof.
  split; [|split; [|split]].
  - apply (proj1 (submission_is_gated_and_snapshots world_at_symptoms));
      reflexivity.
  - apply (proj1 (proj2
             (submission_is_gated_and_snapshots world_at_submission))
             "itching" []);
      reflexivity.
  - apply (proj2 (proj2
             (submission_is_gated_and_snapshots world_before_request))
             3250%N
             (request_body (Some image_B) ["itching"] (vision_answer "mole"))
             []);
      reflexivity.
  - reflexivity.
Defined.

End PageClaims.

(* ================================================================== *)
(** ** More facts about strings *)
(* ================================================================== *)

Module StringFacts.
Import JS JSFacts.

Lemma split_nonempty (sep : ascii) (s : string) : split sep s <> [].
Proof.
  destruct s as [|c s]; simpl; [discriminate|].
  destruct (Ascii.eqb c sep); [discriminate|].
  destruct (split sep s); discriminate.
Qed.

Lemma split_without_sep (sep : ascii) (s : string) :
  includes sep s = false -> split sep s = [s].
Proof.
  induction s as [|c s IH]; simpl; [reflexivity|].
  intros H. apply orb_false_iff in H as [Hc Hs].
  now rewrite Hc, (IH Hs).
Qed.

(** Splitting distributes over a separator. *)
Lemma split_app_sep (sep : ascii) (a b : string) :
  split sep (a ++ String sep b) = (split sep a ++ split sep b)%list.
Proof.
  induction a as [|c a IH]; simpl.
  - now rewrite Ascii.eqb_refl.
  - destruct (Ascii.eqb c sep); [now rewrite IH|].
    rewrite IH. destruct (split sep a) as [|h t] eqn:E; [|reflexivity].
    now elim (split_nonempty sep a).
Qed.

Lemma split_pieces_without_sep (sep : ascii) (s : string) :
  Forall (fun piece => includes sep piece = false) (split sep s).
Proof.
  induction s as [|c s IH]; simpl.
  - repeat constructor.
  - destruct (Ascii.eqb c sep) eqn:Hc.
    + now constructor.
    + destruct (split sep s) as [|h t].
      * repeat constructor. simpl. now rewrite Hc.
      * inversion IH; subst. constructor; [|assumption].
        simpl. now rewrite Hc.
Qed.

(** Joining what was split gives the text back. *)
Lemma concat_split (sep : ascii) (s : string) :
  String.concat (String sep EmptyString) (split sep s) = s.
Proof.
  induction s as [|c s IH]; simpl; [reflexivity|].
  destruct (Ascii.eqb c sep) eqn:Hc.
  - apply Ascii.eqb_eq in Hc. subst c.
    destruct (split sep s) as [|h t] eqn:E.
    + now elim (split_nonempty sep s).
    + simpl in *. now rewrite IH.
  - destruct (split sep s) as [|h t] eqn:E.
    + now elim (split_nonempty sep s).
    + destruct t; simpl in *; now rewrite <- IH.
Qed.

(** Splitting what was joined gives the pieces back, when there is a piece
    and no piece holds the separator. *)
Lemma split_concat (sep : ascii) (l : list string) :
  l <> [] ->
  Forall (fun piece => includes sep piece = false) l ->
  split sep (String.concat (String sep EmptyString) l) = l.
Proof.
  intros Hne Hl. induction Hl as [|p l Hp Hl IH]; [contradiction|].
  destruct l as [|q l].
  - simpl. now apply split_without_sep.
  - change (String.concat (String sep EmptyString) (p :: q :: l))
      with (p ++ String sep (String.concat (String sep EmptyString) (q :: l))).
    rewrite split_app_sep, (split_without_sep _ _ Hp), IH by discriminate.
    reflexivity.
Qed.

(** *** Trimming *)

Lemma trim_cons_space (c : ascii) (s : string) :
  is_space c = true -> trim (String c s) = trim s.
Proof.
  intros Hc. unfold trim. simpl. rewrite Hc. simpl.
  destruct (trimEnd s); simpl; [reflexivity | now rewrite Hc].
Qed.

Lemma trimStart_app_nonspace (x : string) (c : ascii) (z : string) :
  is_space c = false ->
  trimStart (x ++ String c z) = trimStart x ++ String c z.
Proof.
  intros Hc. induction x as [|a x IH]; simpl.
  - now rewrite Hc.
  - destruct (is_space a); [exact IH | reflexivity].
Qed.

Lemma is_empty_app_cons (x : string) (c : ascii) (z : string) :
  is_empty (x ++ String c z) = false.
Proof. now destruct x. Qed.

(** Trimmed at the end, a text is empty or ends with a code unit that is
    not a space. *)
Lemma trimEnd_ends (s : string) :
  trimEnd s = EmptyString
  \/ exists x c, trimEnd s = x ++ String c EmptyString /\ is_space c = false.
Proof.
  induction s as [|c s IH]; simpl; [now left|].
  destruct IH as [E | (x & c' & E & Hc')]; rewrite E.
  - simpl. rewrite andb_true_r. destruct (is_space c) eqn:Hc; [now left|].
    right. exists EmptyString, c. now split.
  - rewrite is_empty_app_cons, andb_false_r.
    right. exists (String c x), c'. now split.
Qed.

Lemma trimStart_starts (s : string) :
  trimStart s = EmptyString
  \/ exists c r, trimStart s = String c r /\ is_space c = false.
Proof.
  induction s as [|c s IH]; simpl; [now left|].
  destruct (is_space c) eqn:Hc; [exact IH|].
  right. exists c, s. now split.
Qed.

Lemma trimStart_nonspace (c : ascii) (r : string) :
  is_space c = false -> trimStart (String c r) = String c r.
Proof. intros Hc. simpl. now rewrite Hc. Qed.

Lemma trimEnd_nonspace (x : string) (c : ascii) :
  is_space c = false ->
  trimEnd (x ++ String c EmptyString) = x ++ String c EmptyString.
Proof. intros Hc. now rewrite trimEnd_app_nonspace. Qed.

(** A trimmed text is empty, or starts and ends with code units that are
    not spaces. *)
Lemma trim_shape (s : string) :
  trim s = EmptyString
  \/ (exists c r, trim s = String c r /\ is_space c = false)
     /\ (exists x c, trim s = x ++ String c EmptyString /\ is_space c = false).
Proof.
  unfold trim.
  destruct (trimEnd_ends s) as [E | (x & c & E & Hc)]; rewrite E.
  - now left.
  - rewrite (trimStart_app_nonspace x c EmptyString Hc).
    right. split.
    + destruct (trimStart_starts x) as [Ex | (c' & r & Ex & Hc')]; rewrite Ex.
      * exists c, EmptyString. now split.
      * exists c', (r ++ String c EmptyString). now split.
    + exists (trimStart x), c. now split.
Qed.

Lemma trim_idempotent (s : string) : trim (trim s) = trim s.
Proof.
  destruct (trim_shape s) as [E | [(c & r & Es & Hc) (x & c' & Ee & Hc')]].
  - now rewrite E.
  - unfold trim at 1. rewrite Ee at 1. rewrite (trimEnd_nonspace _ _ Hc').
    rewrite <- Ee, Es. now apply trimStart_nonspace.
Qed.

Lemma includes_trimStart (sep : ascii) (s : string) :
  includes sep s = false -> includes sep (trimStart s) = false.
Proof.
  induction s as [|c s IH]; simpl; [reflexivity|].
  intros H. destruct (is_space c).
  - apply orb_false_iff in H as [_ Hs]. now apply IH.
  - exact H.
Qed.

Lemma includes_trimEnd (sep : ascii) (s : string) :
  includes sep s = false -> includes sep (trimEnd s) = false.
Proof.
  induction s as [|c s IH]; simpl; [reflexivity|].
  intros H. apply orb_false_iff in H as [Hc Hs].
  destruct (is_space c && is_empty (trimEnd s)); [reflexivity|].
  simpl. now rewrite Hc, (IH Hs).
Qed.

Lemma includes_trim (sep : ascii) (s : string) :
  includes sep s = false -> includes sep (trim s) = false.
Proof.
  intros H. unfold trim. now apply includes_trimStart, includes_trimEnd.
Qed.

End StringFacts.

(* ================================================================== *)
(** ** The report endpoint: further properties *)
(* ================================================================== *)

Module RouteExtra.
Import JS Route JSFacts RouteFacts StringFacts.

Lemma includes_app (sep : ascii) (a b : string) :
  includes sep (a ++ b) = includes sep a || includes sep b.
Proof.
  induction a as [|c a IH]; simpl; [reflexivity|].
  now rewrite IH, orb_assoc.
Qed.

Lemma nth_1_Forall (P : string -> Prop) (l : list string) :
  P EmptyString -> Forall P l -> P (nth 1 l EmptyString).
Proof.
  intros H0 Hl. destruct Hl as [|a l _ Hl]; [exact H0|].
  destruct Hl; [exact H0 | assumption].
Qed.

(** X1. The image of a data URI [data:<mime>;base64,<payload>] is taken apart
    into its two parts; an empty media type gives "image/jpeg". *)
Theorem data_uri_is_taken_apart (mime payload : string) :
  includes ";" mime = false ->
  includes ":" mime = false ->
  includes "," mime = false ->
  includes "," payload = false ->
  mimeType ("data:" ++ mime ++ ";base64," ++ payload)
    = (if is_empty mime then "image/jpeg" else mime)
  /\ base64Data ("data:" ++ mime ++ ";base64," ++ payload) = payload.
Proof.
  intros Hsemi Hcolon Hcomma Hpay. split.
  - unfold mimeType.
    replace ("data:" ++ mime ++ ";base64," ++ payload)
      with (("data:" ++ mime) ++ String ";" ("base64," ++ payload))
      by (rewrite append_assoc; reflexivity).
    rewrite split_app_sep.
    rewrite (split_without_sep ";" ("data:" ++ mime))
      by (rewrite includes_app, Hsemi; reflexivity).
    cbn [hd app].
    change ("data:" ++ mime) with ("data" ++ String ":" mime).
    rewrite split_app_sep, (split_without_sep ":" mime Hcolon).
    reflexivity.
  - unfold base64Data.
    replace ("data:" ++ mime ++ ";base64," ++ payload)
      with (("data:" ++ mime ++ ";base64") ++ String "," payload)
      by (rewrite !append_assoc; reflexivity).
    assert (Hpre : includes "," ("data:" ++ mime ++ ";base64") = false).
    { rewrite !includes_app, Hcomma. reflexivity. }
    rewrite includes_app. simpl (includes "," (String "," payload)).
    rewrite orb_true_r.
    rewrite split_app_sep, (split_without_sep _ _ Hpre),
      (split_without_sep _ _ Hpay).
    reflexivity.
Qed.

Lemma data_uri_is_taken_apart_witness :
  mimeType sample_image = "image/png"
  /\ base64Data sample_image = "iVBORw0KGgo=".
Proof.
  apply (data_uri_is_taken_apart "image/png" "iVBORw0KGgo="); reflexivity.
Defined.

(** X2. Whatever the image text, the data sent holds no comma, and the media
    type sent is not empty and holds no colon. *)
Theorem inline_data_is_well_formed (image : string) :
  includes "," (base64Data image) = false
  /\ is_empty (mimeType image) = false
  /\ includes ":" (mimeType image) = false.
Proof.
  split; [|split].
  - unfold base64Data. destruct (includes "," image) eqn:E; [|exact E].
    apply (nth_1_Forall (fun s => includes "," s = false));
      [reflexivity | apply split_pieces_without_sep].
  - unfold mimeType.
    destruct (nth_error _ 1) as [m|]; [|reflexivity].
    destruct (is_empty m) eqn:E; [reflexivity | exact E].
  - unfold mimeType.
    destruct (nth_error _ 1) as [m|] eqn:E; [|reflexivity].
    destruct (is_empty m); [reflexivity|].
    apply nth_error_In in E.
    pose proof (split_pieces_without_sep ":"
                  (hd EmptyString (split ";" image))) as H.
    rewrite Forall_forall in H. now apply H.
Qed.

(** *** What the loop answers *)

Lemma try_models_status fetch key p models e0 :
  converts e0 = true ->
  exists r,
    fst (try_models fetch key p models e0) = Normal r /\
    status r
    = if existsb (fun m => negb (failed (fetch (model_url m key) p))) models
      then 200 else 503.
Proof.
  revert e0. induction models as [|m models IH]; intros e0 He0; simpl.
  - rewrite (all_failed_converting _ He0). eexists. now split.
  - destruct (failed (fetch (model_url m key) p)) eqn:Hf; simpl.
    + destruct (failed_continues _ Hf) as [e He]. rewrite He.
      destruct (IH e (try_model_continue_converts _ _ He)) as (r & Hr & Hst).
      destruct (try_models fetch key p models e). now exists r.
    + destruct (try_model (fetch (model_url m key) p)) as [t|e] eqn:Hm.
      * eexists. now split.
      * exfalso.
        destruct (fetch (model_url m key) p) as [msg | [|] json];
          simpl in Hf, Hm; try discriminate.
        unfold extractable_text in Hf.
        destruct (candidate_text json) as [t|msg]; [|discriminate].
        destruct (truthy t); discriminate.
Qed.

Lemma try_models_calls fetch key p models e0 :
  exists n,
    snd (try_models fetch key p models e0)
    = map (call_of key p) (firstn n models).
Proof.
  revert e0. induction models as [|m models IH]; intros e0; simpl.
  - now exists 0.
  - destruct (try_model _) as [t|e].
    + now exists 1.
    + destruct (IH e) as [n Hn].
      destruct (try_models fetch key p models e) as [resp calls].
      simpl in *. exists (S n). simpl. now rewrite Hn.
Qed.

(** How [POST] goes, whatever the request: it answers before the loop, with
    no call made, or it is the loop on the payload of the request. *)
Lemma POST_cases fetch models env req_json :
  (snd (POST_with fetch models env req_json) = [] /\
   exists e,
     body (fst (POST_with fetch models env req_json)) = ErrorBody e /\
     (status (fst (POST_with fetch models env req_json)) = 400 \/
      status (fst (POST_with fetch models env req_json)) = 500))
  \/ (exists bdy img p,
        req_json = Normal bdy /\
        truthy (apiKey env) = true /\
        prop_opt bdy "image" = VStr img /\
        img <> EmptyString /\
        payload_of bdy img = Normal p /\
        try_models fetch (to_string (apiKey env)) p models
                   (VStr "Unknown error")
        = (Normal (fst (POST_with fetch models env req_json)),
           snd (POST_with fetch models env req_json))).
Proof.
  assert (Hearly : forall st e,
             (st = 400 \/ st = 500) ->
             snd ({| status := st; body := ErrorBody e |},
                  @nil Attempt) = [] /\
             exists e',
               body (fst ({| status := st; body := ErrorBody e |},
                          @nil Attempt)) = ErrorBody e' /\
               (status (fst ({| status := st; body := ErrorBody e |},
                             @nil Attempt)) = 400 \/
                status (fst ({| status := st; body := ErrorBody e |},
                             @nil Attempt)) = 500)).
  { intros st e H. split; [reflexivity|]. exists e. now split. }
  destruct (truthy (apiKey env)) eqn:Hkey;
    [|left; unfold POST_with; rewrite Hkey; apply Hearly; now right].
  destruct req_json as [bdy|m];
    [|left; unfold POST_with, handle; rewrite Hkey; apply Hearly; now right].
  destruct (is_nullish bdy) eqn:Hnull;
    [left; unfold POST_with, handle; rewrite Hkey, Hnull; apply Hearly;
     now right|].
  destruct (truthy (prop_opt bdy "image")) eqn:Htruthy;
    [|left; unfold POST_with, handle; rewrite Hkey, Hnull, Htruthy;
      apply Hearly; now left].
  destruct (prop_opt bdy "image") as [| |b|z|img|l|o] eqn:Himg;
    try (left; unfold POST_with, handle;
         rewrite Hkey, Hnull, Himg, Htruthy; apply Hearly; now right).
  assert (Hne : img <> EmptyString) by (now destruct img).
  destruct (payload_of bdy img) as [p|msg] eqn:Hp.
  - right. exists bdy, img, p. repeat split; try assumption.
    destruct (POST_dispatch fetch models env bdy img p Hkey Himg Hne Hp)
      as (r & Hloop & <-).
    exact Hloop.
  - left. unfold POST_with, handle. rewrite Hkey, Hnull, Himg, Htruthy.
    unfold payload_of in Hp. simpl. rewrite Hp. apply Hearly. now right.
Qed.


(** X3. A request whose body cannot be read, or is [null], or whose image is
    there but is no text, is answered 500 "Internal server error: ..." by
    the outer [catch], and no call is made. *)
Theorem malformed_request_is_an_internal_error
        (fetch : string -> Payload -> fetch_result) (models : list string)
        (env : Env) :
  truthy (apiKey env) = true ->
  (forall m,
      POST_with fetch models env (Throw m)
      = ({| status := 500;
            body := ErrorBody ("Internal server error: " ++ m) |}, []))
  /\ (exists m,
        POST_with fetch models env (Normal VNull)
        = ({| status := 500;
              body := ErrorBody ("Internal server error: " ++ m) |}, []))
  /\ (forall bdy,
        is_nullish bdy = false ->
        truthy (prop_opt bdy "image") = true ->
        (forall img, prop_opt bdy "image" <> VStr img) ->
        exists m,
          POST_with fetch models env (Normal bdy)
          = ({| status := 500;
                body := ErrorBody ("Internal server error: " ++ m) |}, [])).
Proof.
  intros Hkey. unfold POST_with, handle. rewrite Hkey. simpl.
  split; [reflexivity|]. split; [eexists; reflexivity|].
  intros bdy Hbdy Himg Hstr. rewrite Hbdy, Himg. simpl.
  destruct (prop_opt bdy "image"); try (eexists; reflexivity).
  now elim (Hstr s).
Qed.

Lemma malformed_request_is_an_internal_error_witness :
  POST net_second_answers env_with_key (Throw "Unexpected end of JSON input")
  = ({| status := 500;
        body := ErrorBody
                  "Internal server error: Unexpected end of JSON input" |},
     []).
Proof.
  apply (proj1 (malformed_request_is_an_internal_error
                  net_second_answers MODELS_TO_TRY env_with_key eq_refl)).
Defined.

(** X4. Whatever the request and the network, the answer has status 200, 400,
    500 or 503; it carries a result exactly when the status is 200, and
    the result is then truthy; with 400 or 500 no call was made. *)
Theorem answer_is_classified
        (fetch : string -> Payload -> fetch_result) (models : list string)
        (env : Env) (req_json : completion value) :
  In (status (fst (POST_with fetch models env req_json))) [200; 400; 500; 503]
  /\ match body (fst (POST_with fetch models env req_json)) with
     | ResultBody t =>
         status (fst (POST_with fetch models env req_json)) = 200
         /\ truthy t = true
     | ErrorBody _ =>
         status (fst (POST_with fetch models env req_json)) <> 200
     end
  /\ (status (fst (POST_with fetch models env req_json)) <> 200 ->
      status (fst (POST_with fetch models env req_json)) <> 503 ->
      snd (POST_with fetch models env req_json) = []).
Proof.
  destruct (POST_cases fetch models env req_json)
    as [(Hcalls & e & Hbody & Hst)
       | (bdy & img & p & _ & _ & _ & _ & _ & E)].
  - rewrite Hbody. split; [|split].
    + destruct Hst as [-> | ->]; simpl; auto.
    + destruct Hst as [-> | ->]; discriminate.
    + intros _ _. exact Hcalls.
  - destruct (try_models_answer fetch (to_string (apiKey env)) p models
                (VStr "Unknown error") eq_refl) as (r & Hr & H).
    rewrite E in Hr. simpl in Hr. injection Hr as Hr. rewrite Hr.
    destruct H as [(Hst & t & Hbody & Ht) | (Hst & e & Hbody)];
      rewrite Hst, Hbody.
    + split; [simpl; auto|]. split; [now split|]. intros H. now elim H.
    + split; [simpl; auto|]. split; [discriminate|]. intros _ H. now elim H.
Qed.

Lemma answer_is_classified_witness :
  status (fst (POST net_all_fail env_with_key (Normal body_without_image)))
  = 400
  /\ snd (POST net_all_fail env_with_key (Normal body_without_image)) = [].
Proof.
  split; [reflexivity|].
  apply (proj2 (proj2 (answer_is_classified net_all_fail MODELS_TO_TRY
                         env_with_key (Normal body_without_image))));
    discriminate.
Defined.

Lemma calls_are_a_prefix_aux fetch models env req_json :
  exists n p,
    snd (POST_with fetch models env req_json)
    = map (call_of (to_string (apiKey env)) p) (firstn n models).
Proof.
  destruct (POST_cases fetch models env req_json)
    as [(Hcalls & _) | (bdy & img & p & _ & _ & _ & _ & _ & E)].
  - exists 0, {| text := EmptyString; mime_type := EmptyString;
                 data := EmptyString |}.
    now rewrite Hcalls.
  - destruct (try_models_calls fetch (to_string (apiKey env)) p models
                (VStr "Unknown error")) as [n Hn].
    rewrite E in Hn. now exists n, p.
Qed.

(** X5. The calls made are those for the first models of the list, in list
    order, all with the same key and payload: one call per model at most,
    and none for a model after one that was not called. *)
Theorem calls_are_a_prefix
        (fetch : string -> Payload -> fetch_result) (models : list string)
        (env : Env) (req_json : completion value) :
  (exists n p,
      snd (POST_with fetch models env req_json)
      = map (call_of (to_string (apiKey env)) p) (firstn n models))
  /\ List.length (snd (POST_with fetch models env req_json))
     <= List.length models.
Proof.
  pose proof (calls_are_a_prefix_aux fetch models env req_json) as H.
  split; [exact H|].
  destruct H as (n & p & ->).
  rewrite length_map, length_firstn. apply Nat.le_min_r.
Qed.

(** X6. For a request with a key, an image and a prompt that is built,
    the answer is 200 exactly when the call for some model of the list
    gives text, and 503 otherwise. *)
Theorem success_iff_a_model_answers
        (fetch : string -> Payload -> fetch_result) (models : list string)
        (env : Env) (bdy : value) (img : string) (p : Payload) :
  truthy (apiKey env) = true ->
  prop_opt bdy "image" = VStr img ->
  img <> EmptyString ->
  payload_of bdy img = Normal p ->
  status (fst (POST_with fetch models env (Normal bdy)))
  = if existsb (fun m =>
                  negb (failed (fetch (model_url m (to_string (apiKey env)))
                                      p)))
               models
    then 200 else 503.
Proof.
  intros Hkey Himg Hne Hp.
  destruct (POST_dispatch fetch models env bdy img p Hkey Himg Hne Hp)
    as (r & Hloop & ->).
  destruct (try_models_status fetch (to_string (apiKey env)) p models
              (VStr "Unknown error") eq_refl) as (r' & Hr' & Hst).
  rewrite Hloop in Hr'. simpl in Hr'. now injection Hr' as ->.
Qed.

Lemma success_iff_a_model_answers_witness :
  status (fst (POST net_second_answers env_with_key (Normal sample_body)))
  = 200
  /\ status (fst (POST net_all_fail env_with_key (Normal sample_body))) = 503.
Proof.
  split.
  - apply (success_iff_a_model_answers net_second_answers MODELS_TO_TRY
             env_with_key sample_body sample_image
             {| text := prompt_head "unknown"
                        ++ "User symptoms: itching,redness";
                mime_type := "image/png";
                data := "iVBORw0KGgo=" |});
      [reflexivity | reflexivity | discriminate | reflexivity].
  - apply (success_iff_a_model_answers net_all_fail MODELS_TO_TRY
             env_with_key sample_body sample_image
             {| text := prompt_head "unknown"
                        ++ "User symptoms: itching,redness";
                mime_type := "image/png";
                data := "iVBORw0KGgo=" |});
      [reflexivity | reflexivity | discriminate | reflexivity].
Defined.

(** X7. The key is [GEMINI_API_KEY] when that is set and not empty, and
    otherwise [GOOGLE_GEMINI_API_KEY]; every call made goes to the URL of a
    model of the list with that key as its [key] parameter. *)
Theorem key_is_chosen_and_sent
        (fetch : string -> Payload -> fetch_result) (models : list string)
        (env : Env) (req_json : completion value) (k : string) :
  k <> EmptyString ->
  GEMINI_API_KEY env = Some k
  \/ ((GEMINI_API_KEY env = None \/ GEMINI_API_KEY env = Some EmptyString)
      /\ GOOGLE_GEMINI_API_KEY env = Some k) ->
  truthy (apiKey env) = true
  /\ forall a,
      In a (snd (POST_with fetch models env req_json)) ->
      exists m, In m models /\ url a = model_url m k.
Proof.
  intros Hk Henv.
  assert (Hkey : apiKey env = VStr k).
  { unfold apiKey, or_else.
    destruct Henv as [-> | [[-> | ->] ->]]; simpl; [|reflexivity..].
    destruct k; [contradiction | reflexivity]. }
  split.
  - rewrite Hkey. destruct k; [contradiction | reflexivity].
  - intros a Ha.
    destruct (calls_are_a_prefix_aux fetch models env req_json)
      as (n & p & E).
    rewrite E, Hkey in Ha. apply in_map_iff in Ha as (m & <- & Hm).
    exists m. split; [|reflexivity].
    rewrite <- (firstn_skipn n models). apply in_or_app. now left.
Qed.

Lemma key_is_chosen_and_sent_witness :
  truthy (apiKey Samples.env_with_google_key) = true
  /\ forall a,
      In a (snd (POST net_all_fail Samples.env_with_google_key
                      (Normal sample_body))) ->
      exists m, In m MODELS_TO_TRY /\ url a = model_url m "google-key".
Proof.
  apply (key_is_chosen_and_sent net_all_fail MODELS_TO_TRY
           Samples.env_with_google_key (Normal sample_body) "google-key").
  - discriminate.
  - right. split; [now right | reflexivity].
Defined.

(** X8. The 503 answer is made from the last call alone: two networks
    on which all the calls fail, and which give the same outcome for the
    last model of the list, get the same answer, whatever the outcomes for
    the models before. *)
Theorem only_the_last_failure_is_reported
        (fetch1 fetch2 : string -> Payload -> fetch_result) (env : Env)
        (bdy : value) (img : string) (p : Payload)
        (pre : list string) (m : string) :
  truthy (apiKey env) = true ->
  prop_opt bdy "image" = VStr img ->
  img <> EmptyString ->
  payload_of bdy img = Normal p ->
  Forall (fun m' =>
            failed (fetch1 (model_url m' (to_string (apiKey env))) p) = true)
         (pre ++ [m]) ->
  Forall (fun m' =>
            failed (fetch2 (model_url m' (to_string (apiKey env))) p) = true)
         (pre ++ [m]) ->
  fetch1 (model_url m (to_string (apiKey env))) p
  = fetch2 (model_url m (to_string (apiKey env))) p ->
  POST_with fetch1 (pre ++ [m]) env (Normal bdy)
  = POST_with fetch2 (pre ++ [m]) env (Normal bdy).
Proof.
  intros Hkey Himg Hne Hp H1 H2 Hsame.
  destruct (try_models_all_fail fetch1 (to_string (apiKey env)) p pre m
              (VStr "Unknown error") H1) as (e1 & He1 & Hloop1).
  destruct (try_models_all_fail fetch2 (to_string (apiKey env)) p pre m
              (VStr "Unknown error") H2) as (e2 & He2 & Hloop2).
  rewrite Hsame, He2 in He1. injection He1 as <-.
  rewrite (all_failed_converting e2 (try_model_continue_converts _ _ He2))
    in Hloop1, Hloop2.
  rewrite (POST_dispatch_eq fetch1 _ env bdy img p _ _ Hkey Himg Hne Hp
             Hloop1).
  now rewrite (POST_dispatch_eq fetch2 _ env bdy img p _ _ Hkey Himg Hne Hp
                 Hloop2).
Qed.

Lemma only_the_last_failure_is_reported_witness :
  POST net_all_fail env_with_key (Normal sample_body)
  = POST Samples.net_last_quota env_with_key (Normal sample_body).
Proof.
  apply (only_the_last_failure_is_reported net_all_fail
           Samples.net_last_quota env_with_key sample_body sample_image
           {| text := prompt_head "unknown"
                      ++ "User symptoms: itching,redness";
              mime_type := "image/png";
              data := "iVBORw0KGgo=" |}
           [ "gemini-2.0-flash"; "gemini-2.0-pro"; "gemini-1.5-flash" ]
           "gemini-1.5-pro");
    try reflexivity; [discriminate | repeat constructor..].
Defined.

End RouteExtra.

(* ================================================================== *)
(** ** The wizard: further properties *)
(* ================================================================== *)

Module PageExtra.
Import JS Page Triage Invariant JSFacts StringFacts PageFacts.

Lemma take_due_ok (d : N) (l : list (N * timer)) (t : timer)
      (rest : list (N * timer)) :
  Forall (fun dt => timer_ok (snd dt) = true) l ->
  take_due d l = Some (t, rest) ->
  timer_ok t = true /\ Forall (fun dt => timer_ok (snd dt) = true) rest.
Proof.
  revert rest. induction l as [|[d' t'] l IH]; intros rest Hl; simpl.
  - discriminate.
  - inversion Hl as [|? ? Ht' Hl']; subst. simpl in Ht'.
    destruct (N.eqb d' d).
    + intros [= <- <-]. now split.
    + destruct (take_due d l) as [[t1 rest1]|]; [|discriminate].
      intros [= <- <-]. destruct (IH rest1 Hl' eq_refl) as [Ht Hrest].
      split; [assumption|]. now constructor.
Qed.

Lemma app_cons_not_nil {A : Type} (l : list A) (x : A) : (l ++ [x])%list <> [].
Proof. destruct l; discriminate. Qed.

Lemma step_invariant (w w' : World) (ev : event) :
  wizard_invariant w -> step w ev = Some w' -> wizard_invariant w'.
Proof.
  unfold wizard_invariant.
  intros (Himg & Han & Hload & Hscreen & Htimers).
  assert (Hnav : forall s,
             screen_ok s = true ->
             Forall (fun dt => timer_ok (snd dt) = true)
                    (timers w ++ [((now w + 300)%N, NavTimer s)])).
  { intros s Hs. apply Forall_app. split; [assumption|]. now repeat constructor. }
  destruct ev; simpl.
  - destruct (on_screen landing w); [|discriminate].
    intros [= <-]. simpl. repeat split; auto.
  - destruct (on_screen landing w); [|discriminate].
    intros [= <-]. simpl. repeat split; auto.
  - destruct (on_screen scan w); [|discriminate].
    intros [= <-]. simpl. repeat split; auto.
  - destruct (on_screen scan w); [|discriminate].
    intros [= <-]. simpl. repeat split; auto.
    intros _. apply app_cons_not_nil.
  - destruct (on_screen scan w && negb (isAnalyzing (app w)));
      [|discriminate].
    intros [= <-]. simpl. repeat split; auto.
  - destruct (file_reads w); [discriminate|].
    intros [= <-]. simpl. repeat split; auto.
    intros _. apply app_cons_not_nil.
  - destruct (on_screen triage w); [|discriminate].
    intros [= <-]. simpl. repeat split; auto.
  - destruct (on_screen triage w); [|discriminate].
    intros [= <-]. simpl. repeat split; auto.
  - destruct (on_screen triage w && negb (isVisionLoading (app w)));
      [|discriminate].
    intros [= <-]. unfold proceedToResults.
    destruct (parse_symptoms (symptomsInput (app w))); simpl.
    + repeat split; auto.
    + repeat split; auto.
      apply Forall_app. split; [now apply Hnav|]. now repeat constructor.
  - destruct (on_screen results w); [|discriminate].
    intros [= <-]. simpl. repeat split; auto. discriminate.
  - unfold on_screen.
    destruct (currentScreen (app w)); simpl in *; discriminate.
  - destruct (min_due (timers w)) as [d|].
    + destruct (N.leb (now w + ms) d); [|discriminate].
      intros [= <-]. simpl. repeat split; auto.
    + intros [= <-]. simpl. repeat split; auto.
  - destruct (min_due (timers w)) as [d|]; [|discriminate].
    destruct (take_due d (timers w)) as [[t rest]|] eqn:Ht; [|discriminate].
    destruct (take_due_ok _ _ _ _ Htimers Ht) as [Hok Hrest].
    intros [= <-]. destruct t as [s|b]; simpl; repeat split; auto.
  - destruct (nth_error (vision_calls w) k); [|discriminate].
    intros [= <-]. destruct r as [d|m]; simpl; repeat split; auto;
      discriminate.
  - destruct (nth_error (report_calls w) k); [|discriminate].
    intros [= <-]. unfold report_settled.
    destruct (report_try r) as [res|m]; [destruct (truthy res)|]; simpl;
      repeat split; auto.
Qed.

Lemma run_invariant (evs : list event) (w w' : World) :
  wizard_invariant w -> run w evs = Some w' -> wizard_invariant w'.
Proof.
  revert w. induction evs as [|ev evs IH]; intros w Hw; simpl.
  - now intros [= <-].
  - destruct (step w ev) as [w1|] eqn:Hstep; [|discriminate].
    apply IH. eapply step_invariant; eassumption.
Qed.

Lemma initial_invariant : wizard_invariant initial_world.
Proof.
  unfold wizard_invariant. simpl. repeat split; auto. discriminate.
Qed.

(** X9. After any run of events, the image kept by the component and the
    image kept in the session are the same. *)
Theorem image_copies_agree (evs : list event) (w : World) :
  run initial_world evs = Some w ->
  capturedImage (app w) = image_url (scanSession (app w)).
Proof.
  intros H. exact (proj1 (run_invariant evs _ _ initial_invariant H)).
Qed.

Lemma image_copies_agree_witness :
  run initial_world run_to_submission = Some world_at_submission
  /\ capturedImage (app world_at_submission)
     = image_url (scanSession (app world_at_submission)).
Proof.
  split; [reflexivity|].
  apply (image_copies_agree run_to_submission world_at_submission).
  reflexivity.
Defined.

(** X10. [isAnalyzing] is never true: no handler sets it, so on the scan screen
    the upload button is never disabled and a file can always be chosen. *)
Theorem upload_is_never_disabled (evs : list event) (w : World) :
  run initial_world evs = Some w ->
  isAnalyzing (app w) = false
  /\ (on_screen scan w = true -> step w ChooseFile <> None).
Proof.
  intros H.
  destruct (run_invariant evs _ _ initial_invariant H) as (_ & Han & _).
  split; [exact Han|].
  intros Hscreen. simpl. rewrite Hscreen, Han. discriminate.
Qed.

Lemma upload_is_never_disabled_witness :
  run initial_world Samples.run_to_scan = Some Samples.world_on_scan
  /\ on_screen scan Samples.world_on_scan = true
  /\ isAnalyzing (app Samples.world_on_scan) = false
  /\ step Samples.world_on_scan ChooseFile <> None.
Proof.
  split; [reflexivity|]. split; [reflexivity|].
  destruct (upload_is_never_disabled Samples.run_to_scan
              Samples.world_on_scan eq_refl) as [Han Hstep].
  split; [exact Han|]. apply Hstep. reflexivity.
Defined.

(** X11. While the component says that the vision model is running, which is
    when the button that sends the symptoms is disabled, a classification
    is in flight. *)
Theorem waiting_means_a_call_in_flight (evs : list event) (w : World) :
  run initial_world evs = Some w ->
  isVisionLoading (app w) = true ->
  vision_calls w <> [].
Proof.
  intros H.
  exact (proj1 (proj2 (proj2 (run_invariant evs _ _ initial_invariant H)))).
Qed.

Lemma waiting_means_a_call_in_flight_witness :
  run initial_world run_to_symptoms = Some world_at_symptoms
  /\ isVisionLoading (app world_at_symptoms) = true
  /\ vision_calls world_at_symptoms <> [].
Proof.
  split; [reflexivity|]. split; [reflexivity|].
  apply (waiting_means_a_call_in_flight run_to_symptoms world_at_symptoms);
    reflexivity.
Defined.

(** X12. No run of events shows the information screen or the about screen:
    nothing in the page navigates to them, and so their back button is
    never there to be clicked. *)
Theorem information_and_about_are_never_shown (evs : list event) (w : World) :
  run initial_world evs = Some w ->
  currentScreen (app w) <> information
  /\ currentScreen (app w) <> about
  /\ step w ClickBack = None.
Proof.
  intros H.
  destruct (run_invariant evs _ _ initial_invariant H)
    as (_ & _ & _ & Hscreen & _).
  unfold step, on_screen.
  destruct (currentScreen (app w)); simpl in *;
    repeat split; try discriminate; reflexivity.
Qed.

Lemma information_and_about_are_never_shown_witness :
  run initial_world run_to_reset = Some world_after_reset
  /\ currentScreen (app world_after_reset) <> information
  /\ currentScreen (app world_after_reset) <> about
  /\ step world_after_reset ClickBack = None.
Proof.
  split; [reflexivity|].
  apply (information_and_about_are_never_shown run_to_reset
           world_after_reset).
  reflexivity.
Defined.

(** *** The symptom text, its tags and what is sent *)

Lemma tags_from_texts (k : nat) (pieces : list string) :
  map snd (tags_from k pieces)
  = filter (fun s => negb (is_empty s)) (map trim pieces).
Proof.
  revert k. induction pieces as [|piece pieces IH]; intros k; simpl.
  - reflexivity.
  - destruct (is_empty (trim piece)); simpl; now rewrite IH.
Qed.

Lemma symptom_tags_split (input : string) :
  symptom_tags input = tags_from 0 (split "," input).
Proof. now destruct input. Qed.

(** X13. The tags shown under the symptom box are, in order, the symptoms that
    [proceedToResults] takes from the text. *)
Theorem tags_are_what_is_sent (input : string) :
  map snd (symptom_tags input) = parse_symptoms input.
Proof.
  rewrite symptom_tags_split. apply tags_from_texts.
Qed.

Lemma parse_symptoms_clean (input : string) :
  Forall (fun s => is_empty s = false /\ trim s = s
                   /\ includes "," s = false)
         (parse_symptoms input).
Proof.
  unfold parse_symptoms.
  induction (split_pieces_without_sep "," input) as [|p l Hp _ IH]; simpl.
  - constructor.
  - destruct (is_empty (trim p)) eqn:E; simpl; [exact IH|].
    constructor; [|exact IH].
    split; [exact E|]. split; [apply trim_idempotent|].
    now apply includes_trim.
Qed.

(** X14. Every symptom taken from the text is a trimmed text that is not empty
    and holds no comma, whatever the text. *)
Theorem parsed_symptoms_are_clean (input : string) :
  Forall (fun s => is_empty s = false /\ trim s = s
                   /\ includes "," s = false)
         (parse_symptoms input).
Proof. exact (parse_symptoms_clean input). Qed.

Lemma remove_index_out {A : Type} (idx : nat) (l : list A) :
  List.length l <= idx -> remove_index idx l = l.
Proof.
  revert idx. induction l as [|x l IH]; intros idx H.
  - now destruct idx.
  - destruct idx as [|idx]; simpl in *; [lia|].
    rewrite IH by lia. reflexivity.
Qed.

Lemma remove_index_Forall {A : Type} (P : A -> Prop) (idx : nat)
      (l : list A) :
  Forall P l -> Forall P (remove_index idx l).
Proof.
  intros H. revert idx. induction H as [|x l Hx Hl IH]; intros idx.
  - destruct idx; constructor.
  - destruct idx; simpl; [assumption | now constructor].
Qed.

Lemma setSymptomsInput_same (a : App) :
  setSymptomsInput (symptomsInput a) a = a.
Proof. now destruct a. Qed.

(** Tags removed from [tags_from k] onwards: the tag of index [k + idx]
    goes and the others stay. *)
Lemma tags_from_above (k j : nat) (pieces : list string) :
  j < k ->
  filter (fun t => negb (Nat.eqb (fst t) j)) (tags_from k pieces)
  = tags_from k pieces.
Proof.
  revert k. induction pieces as [|piece pieces IH]; intros k Hk; simpl.
  - reflexivity.
  - destruct (is_empty (trim piece)); simpl.
    + apply IH. lia.
    + destruct (Nat.eqb_spec k j); [lia|]. simpl.
      rewrite IH by lia. reflexivity.
Qed.

Lemma tags_from_remove (k idx : nat) (pieces : list string) :
  map snd (filter (fun t => negb (Nat.eqb (fst t) (k + idx)))
                  (tags_from k pieces))
  = filter (fun s => negb (is_empty s))
           (map trim (remove_index idx pieces)).
Proof.
  revert k idx. induction pieces as [|piece pieces IH]; intros k idx.
  - now destruct idx.
  - simpl. destruct idx as [|idx].
    + rewrite Nat.add_0_r.
      destruct (is_empty (trim piece)); simpl.
      * rewrite tags_from_above by lia. apply tags_from_texts.
      * rewrite Nat.eqb_refl. simpl.
        rewrite tags_from_above by lia. apply tags_from_texts.
    + replace (k + S idx) with (S k + idx) by lia.
      destruct (is_empty (trim piece)) eqn:E; simpl.
      * rewrite E. simpl. exact (IH (S k) idx).
      * rewrite E. destruct (Nat.eqb_spec k (S (k + idx))); [lia|]. simpl.
        f_equal. exact (IH (S k) idx).
Qed.

(** X15. The cross of a tag removes that symptom and no other: after
    [removeSymptomsTag idx] the symptoms taken from the text are those of
    the tags shown before, without the tag of index [idx]. *)
Theorem tag_removal_removes_that_tag (idx : nat) (a : App) :
  parse_symptoms (symptomsInput (removeSymptomsTag idx a))
  = map snd (filter (fun t => negb (Nat.eqb (fst t) idx))
                    (symptom_tags (symptomsInput a))).
Proof.
  rewrite symptom_tags_split, (tags_from_remove 0 idx). simpl.
  unfold parse_symptoms.
  destruct (remove_index idx (split "," (symptomsInput a))) as [|p l] eqn:E.
  - reflexivity.
  - rewrite split_concat; [reflexivity | discriminate |].
    rewrite <- E. apply remove_index_Forall, split_pieces_without_sep.
Qed.

(** X16. Joining the pieces of a text gives the text back; so
    [removeSymptomsTag] with an index that is no piece's leaves the state
    as it is. *)
Theorem tag_removal_out_of_range (idx : nat) (a : App) :
  String.concat "," (split "," (symptomsInput a)) = symptomsInput a
  /\ (List.length (split "," (symptomsInput a)) <= idx ->
      removeSymptomsTag idx a = a).
Proof.
  split; [apply concat_split|].
  intros H. unfold removeSymptomsTag.
  rewrite (remove_index_out idx _ H), concat_split.
  apply setSymptomsInput_same.
Qed.

Lemma tag_removal_out_of_range_witness :
  String.concat "," (split "," "itching, redness") = "itching, redness"
  /\ removeSymptomsTag 2 (setSymptomsInput "itching, redness" initial_app)
     = setSymptomsInput "itching, redness" initial_app.
Proof.
  destruct (tag_removal_out_of_range 2
              (setSymptomsInput "itching, redness" initial_app))
    as [Hjoin Hout].
  split; [exact Hjoin|]. apply Hout. simpl. lia.
Defined.

(** *** The suggestion buttons *)

Lemma clean_app (l1 l2 : list string) :
  filter (fun s => negb (is_empty s)) (map trim (l1 ++ l2))
  = (filter (fun s => negb (is_empty s)) (map trim l1)
     ++ filter (fun s => negb (is_empty s)) (map trim l2))%list.
Proof. now rewrite map_app, filter_app. Qed.

Lemma clean_blank (l : list string) :
  Forall (fun piece => all_space piece = true) l ->
  filter (fun s => negb (is_empty s)) (map trim l) = [].
Proof.
  induction 1 as [|p l Hp _ IH]; simpl; [reflexivity|].
  now rewrite (trim_all_space _ Hp).
Qed.

Lemma space_is_no_comma (c : ascii) :
  is_space c = true -> Ascii.eqb c "," = false.
Proof.
  intros H. destruct (Ascii.eqb_spec c ","); [subst; discriminate|].
  reflexivity.
Qed.

Lemma all_space_without_comma (s : string) :
  all_space s = true -> includes "," s = false.
Proof.
  induction s as [|c s IH]; simpl; [reflexivity|].
  intros H. apply andb_true_iff in H as [Hc Hs].
  now rewrite (space_is_no_comma _ Hc), (IH Hs).
Qed.

Lemma parse_app_comma (a b : string) :
  parse_symptoms (a ++ String "," b)
  = (parse_symptoms a ++ parse_symptoms b)%list.
Proof.
  unfold parse_symptoms. now rewrite split_app_sep, clean_app.
Qed.

Lemma parse_cons_comma (r : string) :
  parse_symptoms (String "," r) = parse_symptoms r.
Proof. reflexivity. Qed.

Lemma parse_cons_space (c : ascii) (r : string) :
  is_space c = true -> parse_symptoms (String c r) = parse_symptoms r.
Proof.
  intros Hc. unfold parse_symptoms. simpl.
  rewrite (space_is_no_comma _ Hc).
  destruct (split "," r) as [|h t] eqn:E.
  - now elim (split_nonempty "," r).
  - simpl. now rewrite (trim_cons_space _ _ Hc).
Qed.

Lemma parse_blank (s : string) : all_space s = true -> parse_symptoms s = [].
Proof.
  intros H. unfold parse_symptoms.
  rewrite (split_without_sep _ _ (all_space_without_comma _ H)). simpl.
  now rewrite (trim_all_space _ H).
Qed.

Lemma parse_single (s : string) :
  includes "," s = false -> trim s = s -> is_empty s = false ->
  parse_symptoms s = [s].
Proof.
  intros Hcomma Htrim Hne. unfold parse_symptoms.
  rewrite (split_without_sep _ _ Hcomma). simpl.
  now rewrite Htrim, Hne.
Qed.

Lemma suggestions_are_clean :
  Forall (fun s => includes "," s = false /\ trim s = s
                   /\ is_empty s = false)
         RED_FLAG_SUGGESTIONS.
Proof. repeat constructor. Qed.

Lemma toggled_adds (s prev : string) :
  includes "," s = false -> trim s = s -> is_empty s = false ->
  includes_str s prev = false ->
  parse_symptoms (toggled s prev) = (parse_symptoms prev ++ [s])%list.
Proof.
  intros Hcomma Htrim Hne Hin. unfold toggled. rewrite Hin.
  destruct prev as [|c prev]; simpl.
  - now apply parse_single.
  - change (String c (prev ++ String "," (String " " s)))
      with (String c prev ++ String "," (String " " s)).
    rewrite parse_app_comma, (parse_cons_space " " s) by reflexivity.
    now rewrite (parse_single s).
Qed.

Lemma starts_with_app (s y : string) : starts_with s (s ++ y) = true.
Proof.
  induction s as [|c s IH]; simpl; [reflexivity|].
  now rewrite Ascii.eqb_refl, IH.
Qed.

Lemma includes_str_starts (s hay : string) :
  starts_with s hay = true -> includes_str s hay = true.
Proof. intros H. destruct hay; simpl; now rewrite H. Qed.

Lemma includes_str_app (s x y : string) :
  includes_str s (x ++ s ++ y) = true.
Proof.
  induction x as [|c x IH]; simpl.
  - apply includes_str_starts, starts_with_app.
  - rewrite IH. apply orb_true_r.
Qed.

Lemma toggled_includes (s prev : string) :
  includes_str s prev = false -> includes_str s (toggled s prev) = true.
Proof.
  intros Hin. unfold toggled. rewrite Hin.
  destruct (is_empty prev).
  - rewrite <- (append_empty_r s) at 2.
    apply (includes_str_app s EmptyString EmptyString).
  - replace (prev ++ ", " ++ s) with ((prev ++ ", ") ++ s ++ EmptyString)
      by (rewrite append_empty_r, append_assoc; reflexivity).
    apply includes_str_app.
Qed.

(** X17. A suggestion that does not occur in the symptom text is added at the
    end of the symptom list, and the text then includes it, which is what
    highlights its button. *)
Theorem suggestion_is_added (s prev : string) :
  In s RED_FLAG_SUGGESTIONS ->
  includes_str s prev = false ->
  parse_symptoms (toggled s prev) = (parse_symptoms prev ++ [s])%list
  /\ includes_str s (toggled s prev) = true.
Proof.
  intros Hs Hin.
  pose proof suggestions_are_clean as H. rewrite Forall_forall in H.
  destruct (H s Hs) as (Hcomma & Htrim & Hne).
  split; [now apply toggled_adds | now apply toggled_includes].
Qed.

Lemma suggestion_is_added_witness :
  parse_symptoms (toggled "Itching" "redness, Pain")
  = ["redness"; "Pain"; "Itching"]
  /\ includes_str "Itching" (toggled "Itching" "redness, Pain") = true.
Proof.
  apply (suggestion_is_added "Itching" "redness, Pain").
  - simpl. tauto.
  - reflexivity.
Defined.

(** *** What the clean-up after a removal keeps *)

Lemma trimEnd_empty_all_space (r : string) :
  trimEnd r = EmptyString -> all_space r = true.
Proof.
  induction r as [|c r IH]; simpl; [reflexivity|].
  destruct (is_space c) eqn:Hc; simpl; [|discriminate].
  destruct (trimEnd r) eqn:E; simpl; [|discriminate].
  intros _. now apply IH.
Qed.

Lemma split_trimEnd (x : string) :
  Forall2 (fun p' p => trimEnd p' = trimEnd p)
          (split "," (trimEnd x)) (split "," x).
Proof.
  induction x as [|c x IH]; simpl.
  - now repeat constructor.
  - destruct (is_space c && is_empty (trimEnd x)) eqn:Hcond.
    + apply andb_true_iff in Hcond as [Hc Hx].
      assert (Ex : trimEnd x = EmptyString)
        by (destruct (trimEnd x); [reflexivity | discriminate]).
      pose proof (trimEnd_empty_all_space x Ex) as Hall.
      rewrite (space_is_no_comma _ Hc).
      rewrite (split_without_sep _ _ (all_space_without_comma _ Hall)).
      simpl. constructor; [|constructor].
      simpl. now rewrite Ex, Hc.
    + simpl. destruct (Ascii.eqb c ",").
      * now constructor.
      * destruct IH as [|h' h t' t Hh Ht].
        -- constructor; [reflexivity | constructor].
        -- constructor; [|assumption]. simpl. now rewrite Hh.
Qed.

Lemma parse_trimEnd (x : string) :
  parse_symptoms (trimEnd x) = parse_symptoms x.
Proof.
  unfold parse_symptoms. f_equal.
  induction (split_trimEnd x) as [|p' p l' l Hp _ IH]; simpl.
  - reflexivity.
  - unfold trim at 1 3. now rewrite Hp, IH.
Qed.

Lemma parse_trimStart (x : string) :
  parse_symptoms (trimStart x) = parse_symptoms x.
Proof.
  induction x as [|c x IH]; simpl; [reflexivity|].
  destruct (is_space c) eqn:Hc; [|reflexivity].
  now rewrite IH, (parse_cons_space _ _ Hc).
Qed.

Lemma parse_trim (x : string) : parse_symptoms (trim x) = parse_symptoms x.
Proof.
  unfold trim. now rewrite parse_trimStart, parse_trimEnd.
Qed.

Lemma split_cut_tail (x : string) :
  exists e,
    split "," x = (split "," (cut_tail x) ++ e)%list
    /\ Forall (fun piece => all_space piece = true) e.
Proof.
  induction x as [|c x (e & Hsplit & He)]; simpl.
  - exists []. now split.
  - destruct (Ascii.eqb c ",") eqn:Hc; simpl.
    + destruct (all_space x) eqn:Hall; simpl.
      * exists [x]. split; [|now repeat constructor].
        now rewrite (split_without_sep _ _ (all_space_without_comma _ Hall)).
      * rewrite Hc. exists e. split; [|assumption]. now rewrite Hsplit.
    + rewrite Hc. exists e. split; [|assumption].
      rewrite Hsplit.
      destruct (split "," (cut_tail x)) as [|h t] eqn:E; [|reflexivity].
      now elim (split_nonempty "," (cut_tail x)).
Qed.

Lemma parse_cut_tail (x : string) :
  parse_symptoms (cut_tail x) = parse_symptoms x.
Proof.
  destruct (split_cut_tail x) as (e & Hsplit & He).
  unfold parse_symptoms. rewrite Hsplit, clean_app, (clean_blank e He).
  now rewrite app_nil_r.
Qed.

Lemma parse_strip_edges (x : string) :
  parse_symptoms (strip_edges x) = parse_symptoms x.
Proof.
  destruct x as [|c x]; [reflexivity|].
  unfold strip_edges.
  destruct (Ascii.eqb_spec c ",") as [-> | Hc].
  - now rewrite parse_cut_tail, parse_trimStart, parse_cons_comma.
  - apply parse_cut_tail.
Qed.

Lemma trimStart_decompose (r : string) :
  exists ws, r = ws ++ trimStart r /\ all_space ws = true.
Proof.
  induction r as [|c r (ws & Hr & Hws)]; simpl.
  - exists EmptyString. now split.
  - destruct (is_space c) eqn:Hc.
    + exists (String c ws). simpl. rewrite Hc, Hws. split; [|reflexivity].
      now rewrite <- Hr.
    + exists EmptyString. now split.
Qed.

(** What a match of [,\s*,] stands for in a text. *)
Lemma comma_spaces_comma_match (s rest : string) :
  comma_spaces_comma s = Some rest ->
  exists ws, s = String "," (ws ++ String "," rest) /\ all_space ws = true.
Proof.
  destruct s as [|c r]; simpl; [discriminate|].
  destruct (Ascii.eqb_spec c ","); [subst c | discriminate].
  destruct (trimStart_decompose r) as (ws & Hr & Hws).
  destruct (trimStart r) as [|c' r'] eqn:E; [discriminate|].
  destruct (Ascii.eqb_spec c' ","); [subst c' | discriminate].
  intros [= <-]. exists ws. split; [|assumption]. now rewrite Hr at 1.
Qed.

Lemma split_collapse (fuel : nat) (s : string) :
  exists h t t',
    split "," s = h :: t
    /\ split "," (collapse_from fuel s) = h :: t'
    /\ filter (fun p => negb (is_empty p)) (map trim t')
       = filter (fun p => negb (is_empty p)) (map trim t).
Proof.
  revert s. induction fuel as [|fuel IH]; intros s; simpl.
  - destruct (split "," s) as [|h t] eqn:E.
    + now elim (split_nonempty "," s).
    + now exists h, t, t.
  - destruct (comma_spaces_comma s) as [rest|] eqn:Hm.
    + destruct (comma_spaces_comma_match _ _ Hm) as (ws & -> & Hws).
      destruct (IH rest) as (h & t & t' & Hs & Hc & Ht).
      exists EmptyString, (ws :: h :: t), (h :: t').
      split; [|split].
      * simpl. rewrite split_app_sep, Hs.
        now rewrite (split_without_sep _ _ (all_space_without_comma _ Hws)).
      * simpl. now rewrite Hc.
      * simpl. rewrite (trim_all_space _ Hws). simpl. now rewrite Ht.
    + destruct s as [|c r]; simpl.
      * exists EmptyString, [], []. now repeat split.
      * destruct (IH r) as (h & t & t' & Hs & Hc & Ht).
        rewrite Hs, Hc.
        destruct (Ascii.eqb c ",").
        -- exists EmptyString, (h :: t), (h :: t').
           split; [reflexivity|]. split; [reflexivity|].
           simpl. now rewrite Ht.
        -- exists (String c h), t, t'. now repeat split.
Qed.

Lemma parse_collapse (s : string) :
  parse_symptoms (collapse_commas s) = parse_symptoms s.
Proof.
  unfold collapse_commas, parse_symptoms.
  destruct (split_collapse (String.length s) s)
    as (h & t & t' & -> & -> & Ht).
  simpl. now rewrite Ht.
Qed.



(** *** A suggestion put in and taken out again *)

Lemma starts_with_blocked (s u z : string) :
  starts_with s u = false ->
  includes "," s = false ->
  starts_with s (u ++ String "," z) = false.
Proof.
  revert u. induction s as [|a n IH]; intros u Hu Hcomma; simpl in *.
  - destruct u; discriminate.
  - apply orb_false_iff in Hcomma as [Ha Hn].
    destruct u as [|b h]; simpl.
    + now rewrite Ha.
    + destruct (Ascii.eqb a b); simpl in *; [now apply IH | reflexivity].
Qed.

Lemma drop_length_app (s y : string) : drop (String.length s) (s ++ y) = y.
Proof. induction s as [|c s IH]; simpl; [now destruct y | exact IH]. Qed.

Lemma remove_first_at_start (s y : string) : remove_first s (s ++ y) = y.
Proof.
  destruct (s ++ y) eqn:E; simpl; rewrite <- E, starts_with_app;
    apply drop_length_app.
Qed.

Lemma remove_first_self (s : string) : remove_first s s = EmptyString.
Proof.
  pose proof (remove_first_at_start s EmptyString) as H.
  now rewrite append_empty_r in H.
Qed.

Lemma remove_first_skip (s : string) (c : ascii) (r : string) :
  starts_with s (String c r) = false ->
  remove_first s (String c r) = String c (remove_first s r).
Proof.
  intros H.
  change (remove_first s (String c r))
    with (if starts_with s (String c r)
          then drop (String.length s) (String c r)
          else String c (remove_first s r)).
  now rewrite H.
Qed.

Lemma remove_first_appended (s prev : string) :
  includes "," s = false -> trim s = s -> is_empty s = false ->
  includes_str s prev = false ->
  remove_first s (prev ++ ", " ++ s) = prev ++ ", ".
Proof.
  intros Hcomma Htrim Hne Hin.
  assert (Ha : forall z, starts_with s (String "," z) = false).
  { intros z. destruct s as [|a n]; [discriminate|]. simpl in *.
    apply orb_false_iff in Hcomma as [Ha _]. now rewrite Ha. }
  assert (Hsp : forall z, starts_with s (String " " z) = false).
  { intros z. destruct s as [|a n]; [discriminate|].
    destruct (trim_shape (String a n))
      as [E | [(c & r & E & Hc) _]]; rewrite Htrim in E;
      [discriminate|].
    injection E as <- _. simpl.
    destruct (Ascii.eqb_spec a " "); [subst; discriminate | reflexivity]. }
  change (prev ++ ", " ++ s) with (prev ++ String "," (String " " s)).
  change (prev ++ ", ") with (prev ++ String "," (String " " EmptyString)).
  induction prev as [|c prev IH].
  - simpl append.
    rewrite (remove_first_skip _ _ _ (Ha _)),
      (remove_first_skip _ _ _ (Hsp _)).
    now rewrite remove_first_self.
  - simpl in Hin. apply orb_false_iff in Hin as [Hstart Hrest].
    assert (Hblock := starts_with_blocked s (String c prev)
                        (String " " s) Hstart Hcomma).
    simpl append in *. rewrite (remove_first_skip _ _ _ Hblock).
    f_equal. now apply IH.
Qed.

(** X19. A suggestion that did not occur in the text, put in and then taken out
    again, leaves the symptom list as it was. *)
Theorem suggestion_added_then_removed (s prev : string) :
  In s RED_FLAG_SUGGESTIONS ->
  includes_str s prev = false ->
  parse_symptoms (toggled s (toggled s prev)) = parse_symptoms prev.
Proof.
  intros Hs Hin.
  pose proof suggestions_are_clean as H. rewrite Forall_forall in H.
  destruct (H s Hs) as (Hcomma & Htrim & Hne).
  unfold toggled at 1. rewrite (toggled_includes s prev Hin).
  rewrite parse_trim, parse_strip_edges, parse_collapse.
  unfold toggled. rewrite Hin.
  destruct prev as [|c prev]; simpl is_empty; cbv iota.
  - now rewrite remove_first_self.
  - rewrite (remove_first_appended s (String c prev) Hcomma Htrim Hne Hin).
    change (String c prev ++ ", ")
      with (String c prev ++ String "," " ").
    rewrite parse_app_comma, (parse_blank " ") by reflexivity.
    apply app_nil_r.
Qed.

Lemma suggestion_added_then_removed_witness :
  parse_symptoms (toggled "Pain" (toggled "Pain" "redness , itching"))
  = parse_symptoms "redness , itching".
Proof.
  apply (suggestion_added_then_removed "Pain" "redness , itching").
  - simpl. tauto.
  - reflexivity.
Defined.

(** The turns given to [collapse_from] are enough: more of them change
    nothing. *)
Lemma length_app_str (a b : string) :
  String.length (a ++ b) = String.length a + String.length b.
Proof. induction a as [|c a IH]; simpl; [reflexivity | now rewrite IH]. Qed.

Lemma collapse_from_empty (fuel : nat) :
  collapse_from fuel EmptyString = EmptyString.
Proof. now destruct fuel. Qed.

Lemma collapse_from_enough (f1 f2 : nat) (s : string) :
  String.length s <= f1 -> String.length s <= f2 ->
  collapse_from f1 s = collapse_from f2 s.
Proof.
  revert f2 s. induction f1 as [|f1 IH]; intros f2 s H1 H2.
  - destruct s; simpl in H1; [|lia]. now rewrite !collapse_from_empty.
  - destruct f2 as [|f2].
    + destruct s; simpl in H2; [|lia]. now rewrite !collapse_from_empty.
    + simpl. destruct (comma_spaces_comma s) as [rest|] eqn:Hm.
      * destruct (comma_spaces_comma_match _ _ Hm) as (ws & -> & _).
        simpl in H1, H2. rewrite length_app_str in H1, H2. simpl in H1, H2.
        f_equal. apply IH; lia.
      * destruct s as [|c r]; [reflexivity|]. simpl in H1, H2.
        f_equal. apply IH; lia.
Qed.

(** *** Captures, resets and what settles later *)

(** X20. A picture taken on the scan screen is stored in both places, marks the
    vision model as running, starts one classification and the navigation
    to the symptom screen; it clears nothing: the symptoms, classification,
    report and error of the session and the symptom text stay. *)
Theorem capture_keeps_previous_results (w : World) (img : string) :
  on_screen scan w = true ->
  exists w',
    step w (WebcamCapture img) = Some w'
    /\ capturedImage (app w') = Some img
    /\ image_url (scanSession (app w')) = Some img
    /\ isVisionLoading (app w') = true
    /\ vision_calls w'
       = (vision_calls w
            ++ [ {| imageSrc := img; made_after := resets w |} ])%list
    /\ timers w' = (timers w ++ [ ((now w + 300)%N, NavTimer triage) ])%list
    /\ symptoms (scanSession (app w')) = symptoms (scanSession (app w))
    /\ vision_result (scanSession (app w'))
       = vision_result (scanSession (app w))
    /\ llm_report (scanSession (app w')) = llm_report (scanSession (app w))
    /\ error (scanSession (app w')) = error (scanSession (app w))
    /\ symptomsInput (app w') = symptomsInput (app w).
Proof.
  intros Hscreen. simpl. rewrite Hscreen.
  eexists. split; [reflexivity|]. repeat split.
Qed.

Lemma capture_keeps_previous_results_witness :
  on_screen scan Samples.world_on_scan = true
  /\ exists w',
      step Samples.world_on_scan (WebcamCapture image_A) = Some w'
      /\ capturedImage (app w') = Some image_A
      /\ image_url (scanSession (app w')) = Some image_A
      /\ isVisionLoading (app w') = true
      /\ vision_calls w'
         = (vision_calls Samples.world_on_scan
              ++ [ {| imageSrc := image_A;
                      made_after := resets Samples.world_on_scan |} ])%list
      /\ timers w'
         = (timers Samples.world_on_scan
              ++ [ ((now Samples.world_on_scan + 300)%N,
                    NavTimer triage) ])%list
      /\ symptoms (scanSession (app w'))
         = symptoms (scanSession (app Samples.world_on_scan))
      /\ vision_result (scanSession (app w'))
         = vision_result (scanSession (app Samples.world_on_scan))
      /\ llm_report (scanSession (app w'))
         = llm_report (scanSession (app Samples.world_on_scan))
      /\ error (scanSession (app w'))
         = error (scanSession (app Samples.world_on_scan))
      /\ symptomsInput (app w') = symptomsInput (app Samples.world_on_scan).
Proof.
  split; [reflexivity|].
  apply (capture_keeps_previous_results Samples.world_on_scan image_A).
  reflexivity.
Defined.

(** X21. Right after a new scan every state cell but the screen shown and
    the language has its first value, the transition being under way; the
    language chosen is kept.  The timer it sets shows the landing page
    300 ms later; when no other timer was pending and that timer is the
    next thing to happen, the state is then the first state with the
    language chosen. *)
Theorem reset_returns_to_the_start (w : World) :
  on_screen results w = true ->
  exists w',
    step w ClickNewScan = Some w'
    /\ app w' = setIsTransitioning true
                  (setCurrentScreen (currentScreen (app w))
                     (setLanguage (language (app w)) initial_app))
    /\ In ((now w + 300)%N, NavTimer landing) (timers w')
    /\ (timers w = [] ->
        exists w'',
          step w' TimerFires = Some w''
          /\ app w'' = setLanguage (language (app w)) initial_app
          /\ timers w'' = []).
Proof.
  intros Hscreen. simpl. rewrite Hscreen.
  eexists. split; [reflexivity|]. simpl. repeat split.
  - apply in_or_app. right. now left.
  - intros Ht. rewrite Ht. simpl. rewrite N.eqb_refl.
    eexists. split; [reflexivity|]. now split.
Qed.

(** X22. A new scan cancels nothing: the timers that were pending are still
    pending, and the classifications and report requests in flight are
    still in flight. *)
Theorem reset_cancels_nothing (w : World) :
  on_screen results w = true ->
  exists w',
    step w ClickNewScan = Some w'
    /\ timers w' = (timers w ++ [ ((now w + 300)%N, NavTimer landing) ])%list
    /\ vision_calls w' = vision_calls w
    /\ report_calls w' = report_calls w
    /\ file_reads w' = file_reads w.
Proof.
  intros Hscreen. simpl. rewrite Hscreen.
  eexists. split; [reflexivity|]. repeat split.
Qed.

Lemma reset_returns_to_the_start_witness :
  on_screen results Samples.world_in_hindi = true
  /\ timers Samples.world_in_hindi = []
  /\ exists w',
      step Samples.world_in_hindi ClickNewScan = Some w'
      /\ app w' = setIsTransitioning true
                    (setCurrentScreen results (setLanguage "hi" initial_app))
      /\ In (3550%N, NavTimer landing) (timers w')
      /\ exists w'',
          step w' TimerFires = Some w''
          /\ app w'' = setLanguage "hi" initial_app
          /\ timers w'' = [].
Proof.
  split; [reflexivity|]. split; [reflexivity|].
  destruct (reset_returns_to_the_start Samples.world_in_hindi eq_refl)
    as (w' & Hstep & Happ & Hin & Hlater).
  exists w'. split; [exact Hstep|]. split; [exact Happ|].
  split; [exact Hin|]. apply Hlater. reflexivity.
Defined.

Lemma reset_cancels_nothing_witness :
  on_screen results Samples.world_on_results = true
  /\ exists w',
      step Samples.world_on_results ClickNewScan = Some w'
      /\ timers w'
         = [ (3250%N,
              ReportTimer (request_body (Some image_B) ["itching"]
                                        (vision_answer "mole")));
             (3350%N, NavTimer landing) ]
      /\ vision_calls w' = [ {| imageSrc := image_B; made_after := 0 |} ]
      /\ report_calls w' = []
      /\ file_reads w' = 0.
Proof.
  split; [reflexivity|].
  apply (reset_cancels_nothing Samples.world_on_results). reflexivity.
Defined.

(** X23. An ok answer to the report request whose [result] is truthy is stored
    as the report; an ok answer whose [result] is missing or falsy changes
    nothing at all.  Neither touches the session's error. *)
Theorem report_is_stored_or_ignored (a : App) (status : nat) (data : value) :
  is_nullish data = false ->
  (truthy (prop_opt data "result") = true ->
   report_settled (Responds true status (Normal data)) a
   = setScanSession (with_llm_report (prop_opt data "result")) a)
  /\ (truthy (prop_opt data "result") = false ->
      report_settled (Responds true status (Normal data)) a = a)
  /\ error (scanSession
              (report_settled (Responds true status (Normal data)) a))
     = error (scanSession a).
Proof.
  intros Hdata. unfold report_settled, report_try, bind, prop.
  rewrite Hdata.
  destruct (truthy (prop_opt data "result")); repeat split;
    intros; try discriminate; reflexivity.
Qed.

Lemma report_is_stored_or_ignored_witness :
  report_settled (Responds true 200 (Normal (VObj [("result", VStr "ok")])))
                 initial_app
  = setScanSession (with_llm_report (VStr "ok")) initial_app
  /\ report_settled (Responds true 200 (Normal (VObj []))) initial_app
     = initial_app.
Proof.
  split.
  - apply (proj1 (report_is_stored_or_ignored initial_app 200
                    (VObj [("result", VStr "ok")]) eq_refl)).
    reflexivity.
  - apply (proj1 (proj2 (report_is_stored_or_ignored initial_app 200
                           (VObj []) eq_refl))).
    reflexivity.
Defined.

(** X24. A classification that fails leaves the session as it was and ends the
    waiting: on the symptom screen the button that sends the symptoms can
    be clicked again. *)
Theorem failed_classification_unblocks (w : World) (k : nat)
        (c : vision_call) (m : string) :
  nth_error (vision_calls w) k = Some c ->
  exists w',
    step w (VisionSettles k (Throw m)) = Some w'
    /\ scanSession (app w') = scanSession (app w)
    /\ isVisionLoading (app w') = false
    /\ (on_screen triage w = true -> step w' ClickGenerateReport <> None).
Proof.
  intros Hk. simpl. rewrite Hk.
  eexists. split; [reflexivity|]. simpl. repeat split.
  intros Hscreen. unfold on_screen in *. simpl in *.
  rewrite Hscreen. discriminate.
Qed.

Lemma failed_classification_unblocks_witness :
  nth_error (vision_calls world_at_symptoms) 0
  = Some {| imageSrc := image_A; made_after := 0 |}
  /\ exists w',
      step world_at_symptoms (VisionSettles 0 (Throw "Failed to fetch"))
      = Some w'
      /\ scanSession (app w') = scanSession (app world_at_symptoms)
      /\ isVisionLoading (app w') = false
      /\ (on_screen triage world_at_symptoms = true ->
          step w' ClickGenerateReport <> None).
Proof.
  split; [reflexivity|].
  apply (failed_classification_unblocks world_at_symptoms 0
           {| imageSrc := image_A; made_after := 0 |} "Failed to fetch").
  reflexivity.
Defined.

End PageExtra.

(* ================================================================== *)
(** ** The page and the endpoint together *)
(* ================================================================== *)

Module WireExtra.
Import JS Wire JSFacts StringFacts RouteFacts RouteExtra PageExtra.






Lemma truthy_wire (t : value) : truthy (json_wire t) = truthy t.
Proof. now destruct t. Qed.



End WireExtra.
